(** * benefind: the scrape-promotions route, embedded and verified

    This development embeds the server route of the repository (the file
    that exports [POST]) as Rocq functions and proves the properties its
    specification states about it.

    Modelling conventions.
    - A JavaScript string is a [string]; one character of the model is one
      code unit, restricted to the range 0..255.
    - Offsets and counters are [Z], as the source computes with them
      ([lastIndexOf] answers [-1], the request counter is compared with a
      constant).
    - Code that can throw lives in a small writer-and-error monad [M]: a
      computation yields a [result] and the list of externally visible
      [event]s it performed.
    - Everything outside the process (the render engine, the inference
      service, the clock, [JSON.parse], the URL validator) is read from an
      environment record. *)

From Stdlib Require Import ZArith Lia Ascii String List Bool.
From stdpp Require Import base option list gmap strings.

Local Open Scope Z_scope.

(* ===================================================================== *)
(** * Part I: definitions                                                 *)
(* ===================================================================== *)

(** ** JavaScript string primitives *)

Module JS.

Definition len (s : string) : Z := Z.of_nat (String.length s).

(** [String.prototype.slice]: a negative offset counts from the end, and
    both offsets are clamped to the string. *)
Definition slice_index (n k : Z) : Z :=
  if k <? 0 then Z.max (n + k) 0 else Z.min k n.

Definition slice (s : string) (b e : Z) : string :=
  let from := slice_index (len s) b in
  let to := slice_index (len s) e in
  String.substring (Z.to_nat from) (Z.to_nat (Z.max (to - from) 0)) s.

(** [s.slice(b)]: the end offset defaults to the length. *)
Definition slice_from (s : string) (b : Z) : string := slice s b (len s).

(** [s.lastIndexOf(pat, pos)]: the greatest index [i <= max pos 0] at
    which [pat] occurs in [s], or [-1].  The scan walks the suffixes of
    [s] from index 0 and remembers the last admissible occurrence. *)
Fixpoint lastIndexOf_scan (pat : string) (pos i : Z) (s : string) (acc : Z) : Z :=
  let acc' := if (i <=? Z.max pos 0) && String.prefix pat s then i else acc in
  match s with
  | EmptyString => acc'
  | String _ s' => lastIndexOf_scan pat pos (i + 1) s' acc'
  end.

Definition lastIndexOf (s pat : string) (pos : Z) : Z :=
  lastIndexOf_scan pat pos 0 s (-1).

(** *** Character classes of ECMAScript, on code units below 256 *)

Definition code (c : ascii) : Z := Z.of_N (N_of_ascii c).

(** [\s]: WhiteSpace and LineTerminator (TAB, LF, VT, FF, CR, SP, NBSP). *)
Definition isWhiteSpace (c : ascii) : bool :=
  ((9 <=? code c) && (code c <=? 13)) || (code c =? 32) || (code c =? 160).

(** LineTerminator: LF and CR. *)
Definition isLineTerminator (c : ascii) : bool :=
  (code c =? 10) || (code c =? 13).

(** [\w]: letters, digits and the underscore. *)
Definition isWordChar (c : ascii) : bool :=
  ((97 <=? code c) && (code c <=? 122)) || ((65 <=? code c) && (code c <=? 90))
  || ((48 <=? code c) && (code c <=? 57)) || (code c =? 95).

(** [String.prototype.trim]. *)
Fixpoint trimStart (s : string) : string :=
  match s with
  | EmptyString => EmptyString
  | String c s' => if isWhiteSpace c then trimStart s' else s
  end.

Fixpoint trimEnd (s : string) : string :=
  match s with
  | EmptyString => EmptyString
  | String c s' =>
    match trimEnd s' with
    | EmptyString => if isWhiteSpace c then EmptyString else String c EmptyString
    | t => String c t
    end
  end.

Definition trim (s : string) : string := trimEnd (trimStart s).

(** [Array.prototype.join]. *)
Definition join (sep : string) (l : list string) : string := String.concat sep l.

(** [n] copies of a character, to build test documents. *)
Fixpoint repeat_char (c : ascii) (n : nat) : string :=
  match n with
  | O => EmptyString
  | S n' => String c (repeat_char c n')
  end.

End JS.

(** ** Regular expressions

    The sanitizer is a chain of [String.prototype.replace] calls with
    regular-expression literals.  The patterns are embedded as syntax trees
    and run by a backtracking matcher that follows the ECMAScript
    semantics: matchers take a continuation, alternatives and repetitions
    are tried in the order the standard prescribes, and a repetition whose
    body matched the empty string is rejected. *)

Module Regex.

Inductive cls_item : Type :=
| CChar (c : ascii)      (* a literal member *)
| CSpace                 (* \s *)
| CNonSpace.             (* \S *)

Inductive regex : Type :=
| Empty
| Lit (c : ascii)
| Dot                                   (* .      *)
| Cls (negated : bool) (items : list cls_item)   (* [...] and [^...] *)
| Seq (r1 r2 : regex)
| Alt (r1 r2 : regex)
| Star (greedy : bool) (r : regex)      (* greedy and lazy repetition *)
| NotAhead (r : regex)                  (* (?!r)  *)
| WordBoundary                          (* \b     *)
| LineStart.                            (* ^      *)

(** The [i] and [m] flags; every pattern of the source carries [g]. *)
Record flags : Type := { ignoreCase : bool; multiline : bool }.

(** Canonicalize of the standard: with [i] both sides are upper-cased.
    Every literal of the patterns is an ASCII character, and the standard
    never maps a code unit above 127 to one below 128, so only the ASCII
    letters matter. *)
Definition canonicalize (fl : flags) (c : ascii) : ascii :=
  if ignoreCase fl && (97 <=? JS.code c) && (JS.code c <=? 122)
  then ascii_of_N (Z.to_N (JS.code c - 32)) else c.

Definition lit_matches (fl : flags) (c ch : ascii) : bool :=
  Ascii.eqb (canonicalize fl c) (canonicalize fl ch).

Definition item_matches (fl : flags) (it : cls_item) (ch : ascii) : bool :=
  match it with
  | CChar c => lit_matches fl c ch
  | CSpace => JS.isWhiteSpace ch
  | CNonSpace => negb (JS.isWhiteSpace ch)
  end.

Definition cls_matches (fl : flags) (negated : bool) (items : list cls_item)
    (ch : ascii) : bool :=
  xorb negated (existsb (fun it => item_matches fl it ch) items).

(** A position of the input is the character before it (if any) and the
    text after it.  A continuation receives the position where the
    pattern so far ended and answers with the text left after the whole
    match. *)
Definition cont : Type := option ascii -> string -> option string.
Definition matcher : Type := cont -> option ascii -> string -> option string.

(** The continuation that ends a match: the text left is the answer. *)
Definition accept : cont := fun _ rest => Some rest.

Definition is_word (o : option ascii) : bool :=
  match o with Some c => JS.isWordChar c | None => false end.

Definition next_char (s : string) : option ascii :=
  match s with EmptyString => None | String c _ => Some c end.

Definition one_char (p : ascii -> bool) : matcher :=
  fun k _ s =>
    match s with
    | String ch s' => if p ch then k (Some ch) s' else None
    | EmptyString => None
    end.

(** RepeatMatcher with min 0 and no max.  One more round of the body is
    accepted only if it consumed input, so the length of the text bounds
    the number of rounds and serves as fuel. *)
Fixpoint star_loop (greedy : bool) (body : matcher) (k : cont) (fuel : nat)
    (prev : option ascii) (s : string) : option string :=
  match fuel with
  | O => k prev s
  | S fuel' =>
    let again (_ : unit) :=
      body (fun prev' s' =>
              if (String.length s' <? String.length s)%nat
              then star_loop greedy body k fuel' prev' s' else None) prev s in
    if greedy then
      match again tt with
      | Some rest => Some rest
      | None => k prev s
      end
    else
      match k prev s with
      | Some rest => Some rest
      | None => again tt
      end
  end.

Fixpoint rmatch (fl : flags) (r : regex) {struct r} : matcher :=
  match r with
  | Empty => fun k prev s => k prev s
  | Lit c => one_char (lit_matches fl c)
  | Dot => one_char (fun ch => negb (JS.isLineTerminator ch))
  | Cls negated items => one_char (cls_matches fl negated items)
  | Seq r1 r2 => fun k => rmatch fl r1 (rmatch fl r2 k)
  | Alt r1 r2 => fun k prev s =>
      match rmatch fl r1 k prev s with
      | Some rest => Some rest
      | None => rmatch fl r2 k prev s
      end
  | Star greedy r' => fun k prev s =>
      star_loop greedy (rmatch fl r') k (String.length s) prev s
  | NotAhead r' => fun k prev s =>
      match rmatch fl r' accept prev s with
      | Some _ => None
      | None => k prev s
      end
  | WordBoundary => fun k prev s =>
      if xorb (is_word prev) (is_word (next_char s)) then k prev s else None
  | LineStart => fun k prev s =>
      match prev with
      | None => k prev s
      | Some c => if multiline fl && JS.isLineTerminator c then k prev s else None
      end
  end.

(** The pattern tried at one position: the text after the match. *)
Definition match_here (fl : flags) (r : regex) (prev : option ascii) (s : string)
    : option string :=
  rmatch fl r accept prev s.

(** Does the pattern match at this position or at a later one? *)
Fixpoint has_match (fl : flags) (r : regex) (prev : option ascii) (s : string) : bool :=
  match match_here fl r prev s with
  | Some _ => true
  | None =>
    match s with
    | EmptyString => false
    | String c s' => has_match fl r (Some c) s'
    end
  end.

(** [s.replace(/r/g, repl)] for a replacement text without [$]: the
    leftmost match from the current position is replaced and the scan goes
    on after it (one character further after an empty match).  [skip]
    counts the characters of the current match still to be dropped. *)
Fixpoint replace_scan (fl : flags) (r : regex) (repl : string) (skip : nat)
    (prev : option ascii) (s : string) : string :=
  match skip with
  | S n =>
    match s with
    | EmptyString => EmptyString
    | String c s' => replace_scan fl r repl n (Some c) s'
    end
  | O =>
    match match_here fl r prev s with
    | Some rest =>
      repl +:+
      match (String.length s - String.length rest)%nat, s with
      | _, EmptyString => EmptyString
      | O, String c s' => String c (replace_scan fl r repl 0 (Some c) s')
      | S n, String c s' => replace_scan fl r repl n (Some c) s'
      end
    | None =>
      match s with
      | EmptyString => EmptyString
      | String c s' => String c (replace_scan fl r repl 0 (Some c) s')
      end
    end
  end.

Definition replace (fl : flags) (r : regex) (repl : string) (s : string) : string :=
  replace_scan fl r repl 0 None s.

(** *** Building patterns *)

Fixpoint cat (l : list regex) : regex :=
  match l with
  | [] => Empty
  | [r] => r
  | r :: l' => Seq r (cat l')
  end.

Fixpoint str (s : string) : regex :=
  match s with
  | EmptyString => Empty
  | String c EmptyString => Lit c
  | String c s' => Seq (Lit c) (str s')
  end.

Fixpoint alt (l : list regex) : regex :=
  match l with
  | [] => NotAhead Empty
  | [r] => r
  | r :: l' => Alt r (alt l')
  end.

Definition plus (r : regex) : regex := Seq r (Star true r).
Definition space : regex := Cls false [CSpace].
Definition any : regex := Cls false [CSpace; CNonSpace].
Definition none_of (c : ascii) : regex := Cls true [CChar c].

Definition g : flags := {| ignoreCase := false; multiline := false |}.
Definition gi : flags := {| ignoreCase := true; multiline := false |}.
Definition gm : flags := {| ignoreCase := false; multiline := true |}.

End Regex.

(** ** The sanitizer *)

Module Sanitizer.

Import Regex.

Definition quote : ascii := ascii_of_nat 34.
Definition CR : ascii := ascii_of_nat 13.
Definition LF : ascii := ascii_of_nat 10.

(** The pattern of a whole element, flags [gi]; written with blanks
    between its parts:  <TAG \b [^<]* (?: (?!</TAG>) < [^<]* )* </TAG>  *)
Definition block (tag : string) : regex :=
  cat [ str ("<" +:+ tag); WordBoundary; Star true (none_of "<");
        Star true (cat [NotAhead (str ("</" +:+ tag +:+ ">")); Lit "<";
                        Star true (none_of "<")]);
        str ("</" +:+ tag +:+ ">") ].

(** A comment, flag [g]:  <!-- [\s\S]*? -->  *)
Definition comment : regex :=
  cat [ str "<!--"; Star false any; str "-->" ].

(** A denylisted attribute, flags [gi]; Q stands for the double quote:
    \s (onclick|onload|onerror|id|class|style|data-.*?) = Q [^Q]* Q  *)
Definition attribute : regex :=
  cat [ space;
        alt [ str "onclick"; str "onload"; str "onerror"; str "id";
              str "class"; str "style"; Seq (str "data-") (Star false Dot) ];
        Lit "="; Lit quote; Star true (none_of quote); Lit quote ].

(** A blank line, flags [gm]:  ^ \s* [\r\n]  *)
Definition blank_line : regex :=
  cat [ LineStart; Star true space; Cls false [CChar CR; CChar LF] ].

(** A run of white space, flag [g]:  \s+  *)
Definition spaces : regex := plus space.

(** The character tests of the last two patterns. *)
Definition is_space : ascii -> bool := cls_matches g false [CSpace].
Definition is_break : ascii -> bool := cls_matches gm false [CChar CR; CChar LF].

(** The nine patterns whose matches are deleted, in the order of the
    chain. *)
Definition removals : list (flags * regex) :=
  [ (gi, block "head"); (gi, block "script"); (gi, block "style");
    (g, comment); (gi, block "footer"); (gi, block "nav");
    (gi, block "form"); (gi, block "iframe"); (gi, attribute) ].

Notation "x |> f" := (f x) (at level 45, left associativity, only parsing).

Definition sanitizeHTML (html : string) : string :=
  html
    |> replace gi (block "head") ""
    |> replace gi (block "script") ""
    |> replace gi (block "style") ""
    |> replace g comment ""
    |> replace gi (block "footer") ""
    |> replace gi (block "nav") ""
    |> replace gi (block "form") ""
    |> replace gi (block "iframe") ""
    |> replace gi attribute ""
    |> replace gm blank_line ""
    |> replace g spaces " "
    |> JS.trim.

(** No deletable block or attribute is left in the document. *)
Definition clean (doc : string) : bool :=
  forallb (fun p => negb (has_match (fst p) (snd p) None doc)) removals.

(** *** The shape of a sanitized document

    What the last two steps of the chain leave: every white-space
    character is a single blank between two other characters. *)

Definition starts_blank (s : string) : bool :=
  match s with
  | EmptyString => false
  | String c _ => JS.isWhiteSpace c
  end.

(** Every white-space character is a blank (code 32) that is not followed
    by white space. *)
Fixpoint squeezed (s : string) : bool :=
  match s with
  | EmptyString => true
  | String c s' =>
    (negb (JS.isWhiteSpace c) || (Ascii.eqb c " " && negb (starts_blank s')))
    && squeezed s'
  end.

Fixpoint has_line_break (s : string) : bool :=
  match s with
  | EmptyString => false
  | String c s' => JS.isLineTerminator c || has_line_break s'
  end.

(** Each run of white space becomes one blank; [in_run] tells that the
    blank of the current run is already written. *)
Fixpoint squeeze (in_run : bool) (s : string) : string :=
  match s with
  | EmptyString => EmptyString
  | String c s' =>
    if JS.isWhiteSpace c
    then if in_run then squeeze true s' else String " " (squeeze true s')
    else String c (squeeze false s')
  end.

(** The number of white-space characters at the start. *)
Fixpoint leading_blanks (s : string) : nat :=
  match s with
  | EmptyString => O
  | String c s' => if JS.isWhiteSpace c then S (leading_blanks s') else O
  end.

(** A script element whose opening tag is interrupted by a comment. *)
Definition masked_script : string := "<scr<!---->ipt>alert(1)</script>".

End Sanitizer.

(** ** The chunker *)

Definition MAX_CHUNK_LENGTH : Z := 15000.
Definition MAX_REQUESTS_PER_MINUTE : Z := 3.
Definition RATE_LIMIT_DELAY : Z := 20000.

Module Chunker.

(** The [while] loop of [splitHTMLIntoChunks], for a limit [L].  The
    loop is not structurally recursive, so it runs on fuel; [None] means
    the fuel ran out before the loop ended. *)
Fixpoint splitLoop (L : Z) (fuel : nat) (remainingHtml : string)
    (chunks : list string) : option (list string) :=
  match fuel with
  | O => None
  | S fuel' =>
    if 0 <? JS.len remainingHtml then
      if JS.len remainingHtml <=? L then Some (chunks ++ [remainingHtml])
      else
        let splitIndex := JS.lastIndexOf remainingHtml "</div>" L in
        let splitIndex := if splitIndex =? -1 then L else splitIndex in
        splitLoop L fuel' (JS.slice_from remainingHtml (splitIndex + 6))
                  (chunks ++ [JS.slice remainingHtml 0 (splitIndex + 6)])
    else Some chunks
  end.

Definition splitWith (L : Z) (html : string) : option (list string) :=
  splitLoop L (S (String.length html)) html [].

Definition splitHTMLIntoChunks (html : string) : option (list string) :=
  splitWith MAX_CHUNK_LENGTH html.

(** The document on which the limit is exceeded: 15007 letters and no
    closing tag. *)
Definition long_plain_document : string := JS.repeat_char "a"%char (Z.to_nat 15007).

End Chunker.

(** ** Exceptions, results and the event log *)

(** The classes of thrown values the route tells apart. *)
Inductive exn : Type :=
| SelectorGenerationError (message : string)
| ZodError (issues : list string)
| Error (message : string)        (* any other instance of Error *)
| Thrown.                         (* a thrown value that is not an Error *)

(** [error instanceof Error ? error.message : "Error desconocido"].  The
    message of a ZodError is never looked at by the route; it is given as
    the list of its issues. *)
Definition message_or_unknown (error : exn) : string :=
  match error with
  | SelectorGenerationError m | Error m => m
  | ZodError issues => JS.join ", " issues
  | Thrown => "Error desconocido"
  end.

Inductive result (A : Type) : Type :=
| Ok (a : A)
| Throw (e : exn).
Arguments Ok {A} a.
Arguments Throw {A} e.

(** What a session does to the outside world, as far as the properties
    below need it. *)
Inductive event : Type :=
| InferenceCall (chunk : string)   (* one request sent to the inference service *)
| Sleep (ms : Z)                   (* setTimeout awaited by the caller *)
| ClosePage
| CloseBrowser.

(** A computation: its outcome and the events it performed, in order. *)
Definition M (A : Type) : Type := (result A * list event)%type.

Definition ret {A} (a : A) : M A := (Ok a, []).
Definition throw {A} (e : exn) : M A := (Throw e, []).
Definition emit (ev : event) : M unit := (Ok tt, [ev]).
Definition lift {A} (r : result A) : M A := (r, []).

Definition bind {A B} (m : M A) (f : A -> M B) : M B :=
  match m with
  | (Ok a, t) => let '(r, t') := f a in (r, t ++ t')
  | (Throw e, t) => (Throw e, t)
  end.

Notation "x <- m ;; k" := (bind m (fun x => k))
  (at level 100, m at next level, right associativity).

(** [try { m } catch (error) { handler error }] *)
Definition try_catch {A} (m : M A) (handler : exn -> M A) : M A :=
  match m with
  | (Ok a, t) => (Ok a, t)
  | (Throw e, t) => let '(r, t') := handler e in (r, t ++ t')
  end.

(** [try { m } finally { cleanup }]: the cleanup always runs; if it throws,
    its exception replaces the outcome. *)
Definition try_finally {A} (m : M A) (cleanup : M unit) : M A :=
  let '(r, t) := m in
  match cleanup with
  | (Ok _, t') => (r, t ++ t')
  | (Throw e, t') => (Throw e, t ++ t')
  end.

Definition is_ok {A} (r : result A) : bool :=
  match r with Ok _ => true | Throw _ => false end.

(** ** JSON values *)

#[warnings="-register-all"]
Inductive json : Type :=
| JNull
| JBool (b : bool)
| JNumber (n : Z)
| JString (s : string)
| JArray (items : list json)
| JObject (members : list (string * json)).

Fixpoint member (key : string) (members : list (string * json)) : option json :=
  match members with
  | [] => None
  | (k, v) :: rest => if String.eqb k key then Some v else member key rest
  end.

(** An object literal as [JSON.stringify] sees it: a property whose value is
    [undefined] is left out. *)
Definition stringify_object (props : list (string * option json)) : json :=
  JObject (omap (fun p => match snd p with Some v => Some (fst p, v) | None => None end) props).

(** ** The environment *)

(** The render engine during one session.  Each field is the outcome of
    the corresponding awaited call. *)
Record Render : Type := {
  launch : result unit;             (* puppeteer.launch *)
  newPage : result unit;            (* browser.newPage *)
  configure : result unit;          (* navigation timeout and request interception *)
  goto : string -> result unit;     (* page.goto(url, networkidle0) *)
  outerHTML : result string;        (* evaluate: document.body.outerHTML *)
  evaluate : result unit;           (* does the extraction call reach the page? *)
  querySelectorAll : string -> result (list (option string));
                                    (* textContent of the elements a selector
                                       matches, in document order; throws on
                                       a selector the page rejects *)
  href : string;                    (* window.location.href *)
  closePage : result unit;
  closeBrowser : result unit
}.

Record Session : Type := {
  render : Render;
  (** the answer of the inference service to the request for the [i]-th
      chunk: the call rejects, or the content of the first choice *)
  completion : nat -> string -> result (option string)
}.

Record World : Type := {
  apiKey : bool;                                   (* OPENAI_API_KEY is set *)
  jsonParse : string -> option (gmap string string);
      (* JSON.parse at the declared type Record<string, string>; None: it throws *)
  isUrl : string -> bool;                          (* z.string().url() *)
  session : nat -> Session;                        (* the session of the i-th URL *)
  startTime : Z;                                   (* Date.now() on entry *)
  endTime : Z                                      (* Date.now() after the sessions *)
}.

(** ** Selector inference *)

Module Inference.

Definition generateSelector (w : World) (answer : result (option string))
    (html : string) : M string :=
  try_catch
    (if negb (apiKey w) then throw (Error "OPENAI_API_KEY no está configurada")
     else
       _ <- emit (InferenceCall html);;
       content <- lift answer;;
       match content with
       | None | Some EmptyString =>
           throw (SelectorGenerationError "OpenAI no generó ningún selector")
       | Some content =>
           match jsonParse w content with
           | Some _ => ret content
           | None => throw (SelectorGenerationError "Respuesta no es JSON válido")
           end
       end)
    (fun error => throw (SelectorGenerationError (message_or_unknown error))).

Definition JSON_parse (w : World) (text : string) : M (gmap string string) :=
  match jsonParse w text with
  | Some v => ret v
  | None => throw (Error "SyntaxError")
  end.

(** The [for] loop of [processHTMLChunks], from index [i] on. *)
Fixpoint processLoop (w : World) (s : Session) (i : nat) (chunks : list string)
    (requestCount : Z) (results : list (gmap string string))
    : M (list (gmap string string)) :=
  match chunks with
  | [] => ret results
  | chunk :: rest =>
    requestCount <-
      (if MAX_REQUESTS_PER_MINUTE <=? requestCount
       then _ <- emit (Sleep RATE_LIMIT_DELAY);; ret 0
       else ret requestCount);;
    state <-
      try_catch
        (selectorsJson <- generateSelector w (completion s i chunk) chunk;;
         selectors <- JSON_parse w selectorsJson;;
         ret (results ++ [selectors], requestCount + 1))
        (fun _ => ret (results, requestCount));;
    processLoop w s (S i) rest (snd state) (fst state)
  end.

Definition processHTMLChunks (w : World) (s : Session) (chunks : list string)
    : M (list (gmap string string)) :=
  processLoop w s 0 chunks 0 [].

(** The largest number of inference calls between two suspensions (or
    before the first, or after the last). *)
Fixpoint max_calls_run (run best : Z) (trace : list event) : Z :=
  match trace with
  | [] => Z.max run best
  | InferenceCall _ :: rest => max_calls_run (run + 1) best rest
  | Sleep _ :: rest => max_calls_run 0 (Z.max run best) rest
  | _ :: rest => max_calls_run run best rest
  end.

Definition max_calls_between_sleeps (trace : list event) : Z :=
  max_calls_run 0 0 trace.

End Inference.

(** ** Combining the selector maps *)

Module Combiner.

Definition allKeys : list string :=
  ["medioPago"; "titulo"; "descripcion"; "fecha"; "condiciones"].

(** [Boolean(s[key])]: [undefined] and the empty string are falsy. *)
Definition truthy (v : option string) : bool :=
  match v with
  | Some (String _ _) => true
  | _ => false
  end.

Definition combineSelectors (selectorsList : list (gmap string string))
    : gmap string string :=
  foldl (fun combined key =>
           let selectors :=
             omap id (List.filter truthy (map (fun s => s !! key) selectorsList)) in
           <[key := JS.join ", " selectors]> combined)
        ∅ allKeys.

(** The fragments of one field as the specification names them: the
    non-empty values of the field, chunk after chunk. *)
Fixpoint fragments (key : string) (selectorsList : list (gmap string string))
    : list string :=
  match selectorsList with
  | [] => []
  | s :: rest =>
    match s !! key with
    | Some (String c v) => String c v :: fragments key rest
    | _ => fragments key rest
    end
  end.

End Combiner.

(** ** Extracting the records *)

Record Promotion : Type := {
  medioPago : string;
  titulo : string;
  descripcion : string;
  url : string;
  fecha : string;
  condiciones : string
}.

Record ScrapingResult : Type := {
  success : bool;
  data : option (list Promotion);
  error : option string
}.

Module Extractor.

Definition findElements (r : Render) (selector : option string) : list string :=
  match selector with
  | None | Some EmptyString => []
  | Some selector =>
    match querySelectorAll r selector with
    | Ok elements =>
        map (fun textContent =>
               match textContent with
               | Some text => JS.trim text
               | None => ""
               end) elements
    | Throw _ => []
    end
  end.

(** [values[index] || ""] *)
Definition at_index (values : list string) (index : nat) : string :=
  default "" (values !! index).

(** The records before the filter: one per element of [titulos]. *)
Definition candidates (r : Render) (selectors : gmap string string) : list Promotion :=
  let titulos := findElements r (selectors !! "titulo") in
  let descripciones := findElements r (selectors !! "descripcion") in
  let fechas := findElements r (selectors !! "fecha") in
  let condiciones := findElements r (selectors !! "condiciones") in
  let mediosPago := findElements r (selectors !! "medioPago") in
  imap (fun index titulo =>
          {| medioPago := at_index mediosPago index;
             titulo := titulo;
             descripcion := at_index descripciones index;
             url := href r;
             fecha := at_index fechas index;
             condiciones := at_index condiciones index |}) titulos.

Definition nonEmpty (s : string) : bool :=
  match s with EmptyString => false | String _ _ => true end.

(** [promo.titulo || promo.descripcion] *)
Definition kept (promo : Promotion) : bool :=
  nonEmpty (titulo promo) || nonEmpty (descripcion promo).

Definition extract (r : Render) (selectors : gmap string string) : list Promotion :=
  List.filter kept (candidates r selectors).

End Extractor.

(** ** One session *)

Module ScrapeSession.

Definition setupPuppeteer (r : Render) : M unit :=
  try_catch (lift (launch r))
    (fun _ => throw (Error "No se pudo inicializar el navegador")).

(** The chunker always returns (lemma [splitHTMLIntoChunks_total]); the
    empty list stands for the run that does not exist. *)
Definition chunksOf (html : string) : list string :=
  default [] (Chunker.splitHTMLIntoChunks html).

(** The [finally] block: handles that were obtained are released, and an
    error of the release is logged, not thrown. *)
Definition release (r : Render) : M unit :=
  let browser := is_ok (launch r) in
  let page := browser && is_ok (newPage r) in
  _ <- (if page
        then try_catch (_ <- emit ClosePage;; lift (closePage r)) (fun _ => ret tt)
        else ret tt);;
  if browser
  then try_catch (_ <- emit CloseBrowser;; lift (closeBrowser r)) (fun _ => ret tt)
  else ret tt.

Definition scrapeUrl (w : World) (s : Session) (url : string) : M ScrapingResult :=
  let r := render s in
  try_finally
    (try_catch
       (_ <- setupPuppeteer r;;
        _ <- lift (newPage r);;
        _ <- lift (configure r);;
        _ <- lift (goto r url);;
        bodyHTML <- lift (outerHTML r);;
        let sanitizedHTML := Sanitizer.sanitizeHTML bodyHTML in
        let chunks := chunksOf sanitizedHTML in
        selectorsList <- Inference.processHTMLChunks w s chunks;;
        let combinedSelectors := Combiner.combineSelectors selectorsList in
        _ <- lift (evaluate r);;
        let promotions := Extractor.extract r combinedSelectors in
        ret {| success := true; data := Some promotions; error := None |})
       (fun error =>
          ret {| success := false; data := None;
                 error := Some (message_or_unknown error) |}))
    (release r).

End ScrapeSession.

(** ** The route *)

Module Route.

Record Request : Type := { req_json : result json }.   (* await req.json() *)

Record Response : Type := { status : Z; body : json }.

(** [urlSchema.parse]: an object whose [urls] is an array of 1 to 10
    strings that are URLs. *)
Definition element_issue (w : World) (item : json) : option string :=
  match item with
  | JString s => if isUrl w s then None else Some "Invalid url"
  | _ => Some "Expected string"
  end.

Definition as_string (item : json) : option string :=
  match item with JString s => Some s | _ => None end.

Definition urlSchema_parse (w : World) (body : json) : result (list string) :=
  match body with
  | JObject members =>
    match member "urls" members with
    | Some (JArray items) =>
      let issues :=
        omap (element_issue w) items
        ++ (if Z.of_nat (length items) <? 1 then ["Se requiere al menos una URL"] else [])
        ++ (if 10 <? Z.of_nat (length items) then ["Máximo 10 URLs permitidas"] else []) in
      match issues with
      | [] => Ok (omap as_string items)
      | _ => Throw (ZodError issues)
      end
    | Some _ => Throw (ZodError ["Expected array"])
    | None => Throw (ZodError ["Required"])
    end
  | _ => Throw (ZodError ["Expected object"])
  end.

(** [Promise.all(urls.map(scrapeUrl))], the first URL having index [i].
    The sessions run concurrently; the model lists their events session
    by session and keeps the results in the order of the URLs, as
    [Promise.all] does. *)
Fixpoint allSessions (w : World) (i : nat) (urls : list string)
    : M (list ScrapingResult) :=
  match urls with
  | [] => ret []
  | url :: rest =>
    r <- ScrapeSession.scrapeUrl w (session w i) url;;
    rs <- allSessions w (S i) rest;;
    ret (r :: rs)
  end.

(** [outcomes w i urls results]: [results] lists, in order, what the
    sessions of [urls] returned, the first URL having index [i]. *)
Inductive outcomes (w : World) : nat -> list string -> list ScrapingResult -> Prop :=
| outcomes_nil i : outcomes w i [] []
| outcomes_cons i url urls r rs t :
    ScrapeSession.scrapeUrl w (session w i) url = (Ok r, t) ->
    outcomes w (S i) urls rs ->
    outcomes w i (url :: urls) (r :: rs).

Definition promotionJson (p : Promotion) : json :=
  JObject [ ("medioPago", JString (medioPago p)); ("titulo", JString (titulo p));
            ("descripcion", JString (descripcion p)); ("url", JString (url p));
            ("fecha", JString (fecha p)); ("condiciones", JString (condiciones p)) ].

(** An element of [errors]; an [undefined] entry of an array is written
    as [null]. *)
Definition errorJson (e : option string) : json :=
  match e with Some m => JString m | None => JNull end.

(** [results.filter(r => r.success).flatMap(r => r.data || [])] *)
Definition promotionsOf (results : list ScrapingResult) : list Promotion :=
  flat_map (fun r => default [] (data r)) (List.filter success results).

(** [results.filter(r => !r.success).map(r => r.error)] *)
Definition errorsOf (results : list ScrapingResult) : list (option string) :=
  map error (List.filter (fun r => negb (success r)) results).

(** The body of the 200 answer. *)
Definition batchBody (promotions : list Promotion) (errors : list (option string))
    (executionTime : Z) : json :=
  stringify_object
    [ ("promotions", Some (JArray (map promotionJson promotions)));
      ("errors", if 0 <? Z.of_nat (length errors)
                 then Some (JArray (map errorJson errors)) else None);
      ("executionTime", Some (JNumber executionTime)) ].

Definition POST (w : World) (req : Request) : M Response :=
  try_catch
    (body <- lift (req_json req);;
     urls <- lift (urlSchema_parse w body);;
     results <- allSessions w 0 urls;;
     let promotions := promotionsOf results in
     let errors := errorsOf results in
     let executionTime := endTime w - startTime w in
     ret {| status := 200; body := batchBody promotions errors executionTime |})
    (fun error =>
       match error with
       | ZodError issues =>
           ret {| status := 400;
                  body := stringify_object
                    [ ("error", Some (JString "Error de validación"));
                      ("details", Some (JArray (map JString issues))) ] |}
       | SelectorGenerationError message =>
           ret {| status := 422;
                  body := stringify_object
                    [ ("error", Some (JString "Error al generar selectores"));
                      ("message", Some (JString message)) ] |}
       | _ =>
           ret {| status := 500;
                  body := stringify_object
                    [ ("error", Some (JString "Error interno del servidor"));
                      ("message", Some (JString (message_or_unknown error))) ] |}
       end).

End Route.

(** ** A concrete world

    The page of the end-to-end scenario of the specification: three
    promotion blocks, each with a title and a description, and an inference
    service that answers with the two selectors. *)

Module Scenario.

Definition answer : string := "{titulo: .title, descripcion: .desc}".

Definition selectors : gmap string string :=
  {[ "titulo" := ".title"; "descripcion" := ".desc"; "medioPago" := "";
     "fecha" := ""; "condiciones" := "" ]}.

Definition page : Render := {|
  launch := Ok tt; newPage := Ok tt; configure := Ok tt;
  goto := fun _ => Ok tt;
  outerHTML := Ok "<body><div><b>A</b><i>a</i></div><div><b>B</b><i>b</i></div><div><b>C</b><i>c</i></div></body>";
  evaluate := Ok tt;
  querySelectorAll := fun selector =>
    if String.eqb selector ".title" then Ok [Some " A "; Some "B"; Some "C"]
    else if String.eqb selector ".desc" then Ok [Some "a"; Some "b"; Some "c"]
    else Throw (Error "SyntaxError");
  href := "https://example.com/promos";
  closePage := Ok tt; closeBrowser := Ok tt |}.

Definition world (key : bool) : World := {|
  apiKey := key;
  jsonParse := fun text => if String.eqb text answer then Some selectors else None;
  isUrl := fun _ => true;
  session := fun _ => {| render := page; completion := fun _ _ => Ok (Some answer) |};
  startTime := 1000;
  endTime := 4000 |}.

Definition request : Route.Request :=
  {| Route.req_json := Ok (JObject [("urls", JArray [JString "https://example.com/promos"])]) |}.

(** A service that never answers with JSON, and four chunks for it. *)
Definition deaf : Session :=
  {| render := page; completion := fun _ _ => Ok (Some "sorry") |}.

Definition four_chunks : list string := ["c1"; "c2"; "c3"; "c4"].

End Scenario.

(** ** The page as the extractor sees it

    The words of the specification about the field arrays, written over the
    page itself: the elements a selector matches, the text of an element,
    and the text at a position of a field array. *)

Module Page.

(** The elements a selector matches, each with its [textContent]: none
    for a missing or empty selector and for one the page rejects. *)
Definition matched (r : Render) (selector : option string) : list (option string) :=
  match selector with
  | Some (String c selector') =>
    match querySelectorAll r (String c selector') with
    | Ok elements => elements
    | Throw _ => []
    end
  | _ => []
  end.

(** The trimmed text of an element; an element without text content
    counts as empty. *)
Definition textOf (element : option string) : string :=
  match element with
  | Some text => JS.trim text
  | None => ""
  end.

(** The text at a position of a field array; a position the array does
    not have counts as empty. *)
Definition textAt (elements : list (option string)) (index : nat) : string :=
  match elements !! index with
  | Some element => textOf element
  | None => ""
  end.

End Page.

(** ** The client: the form and the page component that call the route *)

Module Client.

(** [urlInput.split("\n")] *)
Fixpoint splitLines (s : string) : list string :=
  match s with
  | EmptyString => [EmptyString]
  | String c s' =>
    if Ascii.eqb c Sanitizer.LF then EmptyString :: splitLines s'
    else
      match splitLines s' with
      | line :: lines => String c line :: lines
      | [] => [String c EmptyString]
      end
  end.

(** [handleSubmit] of the form: the lines that are not blank, as typed. *)
Definition submittedUrls (urlInput : string) : list string :=
  List.filter (fun url => Extractor.nonEmpty (JS.trim url)) (splitLines urlInput).

(** The [disabled] attribute of the submit button:
    [disabled || !urlInput.trim()]. *)
Definition buttonDisabled (disabled : bool) (urlInput : string) : bool :=
  disabled || negb (Extractor.nonEmpty (JS.trim urlInput)).

(** What [fetch] resolves to: [response.ok] and the outcome of
    [response.json()]. *)
Record HttpResponse : Type := { ok : bool; json_body : result json }.

(** The state of the page component. *)
Record State : Type := {
  promotions : option json;     (* None: undefined *)
  loading : bool;
  error : option string
}.

(** [data.key]: reading a property of [null] throws a TypeError; a value
    that is not an object has no such property. *)
Definition property (key : string) (data : json) : result (option json) :=
  match data with
  | JObject members => Ok (member key members)
  | JNull => Throw (Error ("Cannot read properties of null (reading '" +:+ key +:+ "')"))
  | _ => Ok None
  end.

(** Truthiness of a value read from the body. *)
Definition truthy (v : option json) : bool :=
  match v with
  | None | Some JNull | Some (JBool false) | Some (JNumber 0)
  | Some (JString EmptyString) => false
  | Some _ => true
  end.

Definition rbind {A B} (r : result A) (f : A -> result B) : result B :=
  match r with
  | Ok a => f a
  | Throw e => Throw e
  end.

(** [fetchPromotions]: [net] is what awaiting [fetch] gives, and [show] is
    the conversion to text of a value that is not a string, which
    [new Error(value)] applies. *)
Definition fetchPromotions (show : json -> string) (net : result HttpResponse)
    (st : State) : State :=
  let attempt : result (option json) :=
    rbind net (fun response =>
    rbind (json_body response) (fun data =>
    if negb (ok response) then
      rbind (property "error" data) (fun e =>
      Throw (Error (if truthy e
                    then match e with
                         | Some (JString m) => m
                         | Some v => show v
                         | None => ""
                         end
                    else "Error al obtener promociones")))
    else property "promotions" data)) in
  match attempt with
  | Ok promos => {| promotions := promos; loading := false; error := None |}
  | Throw err =>
      {| promotions := promotions st; loading := false;
         error := Some (message_or_unknown err) |}
  end.

(** The answer of the route as [fetch] hands it to the component. *)
Definition deliver (resp : Route.Response) : HttpResponse :=
  {| ok := (200 <=? Route.status resp) && (Route.status resp <=? 299);
     json_body := Ok (Route.body resp) |}.

(** Every character is white space. *)
Fixpoint blank (s : string) : bool :=
  match s with
  | EmptyString => true
  | String c s' => JS.isWhiteSpace c && blank s'
  end.

End Client.

(** ** More concrete worlds *)

Module Cases.

(** A page whose navigation times out. *)
Definition offline : Render := {|
  launch := Ok tt; newPage := Ok tt; configure := Ok tt;
  goto := fun _ => Throw (Error "Navigation timeout of 30000 ms exceeded");
  outerHTML := Throw (Error "no page");
  evaluate := Throw (Error "no page");
  querySelectorAll := fun _ => Ok [];
  href := "about:blank";
  closePage := Ok tt; closeBrowser := Ok tt |}.

(** A world with two sessions: the first page is the one of the scenario,
    the second cannot be reached. *)
Definition mixed : World := {|
  apiKey := true;
  jsonParse := jsonParse (Scenario.world true);
  isUrl := fun _ => true;
  session := fun i =>
    match i with
    | O => session (Scenario.world true) 0
    | S _ => {| render := offline; completion := fun _ _ => Ok None |}
    end;
  startTime := 1000;
  endTime := 4000 |}.

Definition two_urls : list string :=
  ["https://example.com/promos"; "https://example.com/down"].

Definition two_urls_request : Route.Request :=
  {| Route.req_json := Ok (JObject [("urls", JArray (map JString two_urls))]) |}.

(** A page with two title elements, the first of which holds only white
    space, and no description. *)
Definition padded : Render := {|
  launch := Ok tt; newPage := Ok tt; configure := Ok tt;
  goto := fun _ => Ok tt;
  outerHTML := Ok "<body><h3>  </h3><h3> 2x1 </h3></body>";
  evaluate := Ok tt;
  querySelectorAll := fun selector =>
    if String.eqb selector "h3" then Ok [Some "  "; Some " 2x1 "]
    else Throw (Error "SyntaxError");
  href := "https://example.com/padded";
  closePage := Ok tt; closeBrowser := Ok tt |}.

End Cases.

(** ** Observations on chunks and event logs *)

Module Observe.

(** [s.endsWith(suffix)] *)
Definition endsWith (s suffix : string) : bool :=
  (String.length suffix <=? String.length s)%nat
  && String.eqb
       (String.substring (String.length s - String.length suffix)
                         (String.length suffix) s)
       suffix.

(** The pattern occurs in the text at offset [j]. *)
Definition occursAt (pat s : string) (j : Z) : Prop :=
  exists pre rest, s = pre +:+ pat +:+ rest /\ JS.len pre = j.

(** [j] is the last offset, at or before [L], at which the closing tag
    starts in the text. *)
Definition lastTagUpTo (L : Z) (s : string) (j : Z) : Prop :=
  0 <= j <= L
  /\ occursAt "</div>" s j
  /\ forall j', 0 <= j' <= L -> occursAt "</div>" s j' -> j' <= j.

(** Every chunk but the last is well cut.  With [remaining] the text from
    that chunk on: if a closing tag starts at or before [L] in it, the chunk
    ends right after the last such tag; if none does, the chunk is a hard
    cut of [L + 6] characters. *)
Fixpoint wellCut (L : Z) (chunks : list string) : Prop :=
  match chunks with
  | c :: rest =>
    match rest with
    | [] => True
    | _ :: _ =>
      let remaining := JS.join "" chunks in
      ((exists j, lastTagUpTo L remaining j
                  /\ JS.len c = j + 6 /\ endsWith c "</div>" = true)
       \/ ((forall j, 0 <= j <= L -> ~ occursAt "</div>" remaining j)
           /\ JS.len c = L + 6))
      /\ wellCut L rest
    end
  | [] => True
  end.

(** Does the character occur in the text? *)
Fixpoint occurs (c : ascii) (s : string) : bool :=
  match s with
  | EmptyString => false
  | String d s' => Ascii.eqb c d || occurs c s'
  end.

(** A continuation of the matcher is blocked by [c] when it fails on every
    text in which [c] does not occur. *)
Definition blocked (c : ascii) (k : Regex.cont) : Prop :=
  forall prev s, occurs c s = false -> k prev s = None.

(** Did the render engine do all that the session asks of it? *)
Definition rendered (r : Render) (url : string) : bool :=
  is_ok (launch r) && is_ok (newPage r) && is_ok (configure r)
  && is_ok (goto r url) && is_ok (outerHTML r) && is_ok (evaluate r).

(** The message of the first step that fails among the five that lead to
    the body of the page, if one does; a launch that fails has a message of
    its own. *)
Definition renderFailure (r : Render) (url : string) : option string :=
  match launch r with
  | Throw _ => Some "No se pudo inicializar el navegador"
  | Ok _ =>
    match newPage r with
    | Throw e => Some (message_or_unknown e)
    | Ok _ =>
      match configure r with
      | Throw e => Some (message_or_unknown e)
      | Ok _ =>
        match goto r url with
        | Throw e => Some (message_or_unknown e)
        | Ok _ =>
          match outerHTML r with
          | Throw e => Some (message_or_unknown e)
          | Ok _ => None
          end
        end
      end
    end
  end.

(** The events of the [finally] block of a session. *)
Definition closing (r : Render) : list event :=
  if is_ok (launch r)
  then (if is_ok (newPage r) then [ClosePage] else []) ++ [CloseBrowser]
  else [].

(** The chunks sent to the inference service, in the order of the log. *)
Fixpoint callsOf (trace : list event) : list string :=
  match trace with
  | [] => []
  | InferenceCall chunk :: rest => chunk :: callsOf rest
  | _ :: rest => callsOf rest
  end.

(** The suspensions of the log, each with its duration. *)
Fixpoint sleepsOf (trace : list event) : list Z :=
  match trace with
  | [] => []
  | Sleep ms :: rest => ms :: sleepsOf rest
  | _ :: rest => sleepsOf rest
  end.

End Observe.

(* ===================================================================== *)
(** * Part II: theorems                                                   *)
(* ===================================================================== *)

(** ** Strings *)

Section StringFacts.

Lemma append_nil_r (s : string) : s +:+ "" = s.
Proof.
  induction s as [|c s IH]; [reflexivity|].
  change (String c (s +:+ "") = String c s). congruence.
Qed.

Lemma append_assoc (a b c : string) : (a +:+ b) +:+ c = a +:+ b +:+ c.
Proof.
  induction a as [|x a IH]; [reflexivity|].
  change (String x ((a +:+ b) +:+ c) = String x (a +:+ b +:+ c)). congruence.
Qed.

Lemma substring_zero_length (s : string) (m : nat) :
  String.length (String.substring 0 m s) = Nat.min m (String.length s).
Proof.
  revert m; induction s as [|c s IH]; intros [|m]; simpl; auto.
Qed.

Lemma substring_full (s : string) :
  String.substring 0 (String.length s) s = s.
Proof. induction s as [|c s IH]; simpl; congruence. Qed.

Lemma substring_split (s : string) (m : nat) :
  String.substring 0 m s +:+ String.substring m (String.length s - m) s = s.
Proof.
  revert m; induction s as [|c s IH]; intros [|m]; cbn; auto.
  - rewrite substring_full. reflexivity.
  - change (String c (substring 0 m s +:+ substring m (String.length s - m) s) = String c s).
    f_equal. apply IH.
Qed.

End StringFacts.

(** ** The chunker *)

Section ChunkerFacts.

Import JS Chunker.

(** The primitives on small inputs. *)
Example lastIndexOf_before_position :
  lastIndexOf "ab</div>cd</div>" "</div>" 8 = 2
  /\ lastIndexOf "ab</div>cd</div>" "</div>" 10 = 10
  /\ lastIndexOf "ab</div>cd</div>" "</div>" 1 = -1.
Proof. repeat split; reflexivity. Qed.

Example slice_clamps :
  slice "abcdef" 0 4 = "abcd" /\ slice_from "abcdef" 4 = "ef"
  /\ slice "abc" 0 10 = "abc" /\ slice_from "abc" (-1) = "c".
Proof. repeat split; reflexivity. Qed.

(** With a limit of 10: a cut after the closing tag found at index 8, and
    a cut at offset 16 when no closing tag is found. *)
Example split_after_closing_tag :
  splitWith 10 "<p>a</p></div><p>bcdefgh</p>"
  = Some ["<p>a</p></div>"; "<p>bcdefgh</p>"].
Proof. reflexivity. Qed.

Example split_without_closing_tag :
  splitWith 10 "0123456789abcdefghij" = Some ["0123456789abcdef"; "ghij"].
Proof. reflexivity. Qed.

Lemma len_nonneg (s : string) : 0 <= len s.
Proof. unfold len; lia. Qed.

Lemma slice_index_range (n k : Z) : 0 <= n -> 0 <= slice_index n k <= n.
Proof. unfold slice_index; destruct (k <? 0) eqn:E; lia. Qed.

Lemma slice_prefix_suffix (s : string) (k : Z) :
  slice s 0 k +:+ slice_from s k = s.
Proof.
  unfold slice_from, slice.
  pose proof (len_nonneg s) as Hn.
  pose proof (slice_index_range (len s) k Hn) as Hk.
  replace (slice_index (len s) 0) with 0 by (unfold slice_index; simpl; lia).
  replace (slice_index (len s) (len s)) with (len s)
    by (unfold slice_index; destruct (len s <? 0) eqn:E; lia).
  set (t := slice_index (len s) k) in *.
  replace (Z.to_nat (Z.max (t - 0) 0)) with (Z.to_nat t) by lia.
  replace (Z.to_nat (Z.max (len s - t) 0)) with (String.length s - Z.to_nat t)%nat
    by (unfold len in *; lia).
  change (Z.to_nat 0) with 0%nat.
  apply substring_split.
Qed.

Lemma slice_prefix_len (s : string) (k : Z) :
  0 <= k -> len (slice s 0 k) = Z.min k (len s).
Proof.
  intros Hk. unfold slice.
  replace (slice_index (len s) 0) with 0 by (unfold slice_index; simpl; pose proof (len_nonneg s); lia).
  replace (slice_index (len s) k) with (Z.min k (len s))
    by (unfold slice_index; destruct (k <? 0) eqn:E; lia).
  change (Z.to_nat 0) with 0%nat.
  unfold len at 1. rewrite substring_zero_length.
  pose proof (len_nonneg s). unfold len in *. lia.
Qed.

Lemma append_len (a b : string) : len (a +:+ b) = len a + len b.
Proof.
  unfold len. induction a as [|c a IH]; cbn.
  - change (EmptyString +:+ b) with b. lia.
  - change (String c a +:+ b) with (String c (a +:+ b)). cbn. lia.
Qed.

Lemma slice_suffix_len (s : string) (k : Z) :
  0 <= k -> len (slice_from s k) = len s - Z.min k (len s).
Proof.
  intros Hk.
  pose proof (slice_prefix_suffix s k) as E.
  apply (f_equal len) in E. rewrite append_len, slice_prefix_len in E by lia. lia.
Qed.

Lemma lastIndexOf_scan_range (pat : string) (pos : Z) (s : string) :
  forall i acc, 0 <= i ->
    (acc = -1 \/ 0 <= acc <= Z.max pos 0) ->
    lastIndexOf_scan pat pos i s acc = -1 \/
    0 <= lastIndexOf_scan pat pos i s acc <= Z.max pos 0.
Proof.
  induction s as [|c s IH]; intros i acc Hi Hacc; cbn [lastIndexOf_scan].
  - destruct (Z.leb_spec i (Z.max pos 0)), (String.prefix pat "");
      cbn [andb]; auto; lia.
  - apply IH; [lia|].
    destruct (Z.leb_spec i (Z.max pos 0)), (String.prefix pat (String c s));
      cbn [andb]; auto; lia.
Qed.

Lemma lastIndexOf_range (s pat : string) (pos : Z) :
  lastIndexOf s pat pos = -1 \/ 0 <= lastIndexOf s pat pos <= Z.max pos 0.
Proof. apply lastIndexOf_scan_range; [lia | auto]. Qed.

Lemma join_empty_cons (c : string) (l : list string) :
  join "" (c :: l) = c +:+ join "" l.
Proof.
  unfold join. destruct l as [|d l]; cbn [String.concat].
  - symmetry. apply append_nil_r.
  - reflexivity.
Qed.

Lemma join_empty_snoc (chunks : list string) (x : string) :
  join "" (chunks ++ [x]) = join "" chunks +:+ x.
Proof.
  induction chunks as [|c chunks IH].
  - reflexivity.
  - change ((c :: chunks) ++ [x]) with (c :: (chunks ++ [x])).
    rewrite !join_empty_cons, IH. symmetry. apply append_assoc.
Qed.

Section Limit.

Variable L : Z.
Hypothesis HL : 0 <= L.

(** The cut offset is at least 6 and at most [L + 6]. *)
Lemma cut_offset_range (s : string) :
  let splitIndex := lastIndexOf s "</div>" L in
  let splitIndex := if splitIndex =? -1 then L else splitIndex in
  6 <= splitIndex + 6 <= L + 6.
Proof.
  cbv zeta. destruct (lastIndexOf_range s "</div>" L) as [E|E].
  - rewrite E. simpl. lia.
  - destruct (Z.eqb_spec (lastIndexOf s "</div>" L) (-1)); lia.
Qed.

(** Enough fuel always ends the loop. *)
Lemma splitLoop_total (fuel : nat) :
  forall remainingHtml chunks,
    (String.length remainingHtml < fuel)%nat ->
    exists out, splitLoop L fuel remainingHtml chunks = Some out.
Proof.
  induction fuel as [|fuel IH]; intros s chunks Hf; [lia|].
  cbn [splitLoop].
  destruct (Z.ltb_spec 0 (len s)) as [E0|E0]; [|eauto].
  destruct (Z.leb_spec (len s) L) as [E1|E1]; [eauto|].
  apply IH.
  pose proof (cut_offset_range s) as Hc. cbv zeta in Hc.
  assert (len (slice_from s
    ((if lastIndexOf s "</div>" L =? -1 then L else lastIndexOf s "</div>" L) + 6))
    < len s) as Hlt by (rewrite slice_suffix_len; lia).
  unfold len in Hlt. lia.
Qed.

(** The loop only moves characters from the remainder to the chunks. *)
Lemma splitLoop_join (fuel : nat) :
  forall remainingHtml chunks out,
    splitLoop L fuel remainingHtml chunks = Some out ->
    join "" out = join "" chunks +:+ remainingHtml.
Proof.
  induction fuel as [|fuel IH]; intros s chunks out H; [discriminate|].
  cbn [splitLoop] in H.
  destruct (Z.ltb_spec 0 (len s)) as [E0|E0].
  - destruct (Z.leb_spec (len s) L) as [E1|E1].
    + inversion H; subst. apply join_empty_snoc.
    + apply IH in H. rewrite H, join_empty_snoc, append_assoc.
      rewrite slice_prefix_suffix. reflexivity.
  - inversion H; subst.
    assert (s = "") as ->.
    { destruct s; [reflexivity|]. unfold len in E0. cbn in E0. lia. }
    symmetry. apply append_nil_r.
Qed.

(** No chunk is longer than [L + 6]. *)
Lemma splitLoop_bound (fuel : nat) :
  forall remainingHtml chunks out,
    Forall (fun c => len c <= L + 6) chunks ->
    splitLoop L fuel remainingHtml chunks = Some out ->
    Forall (fun c => len c <= L + 6) out.
Proof.
  induction fuel as [|fuel IH]; intros s chunks out Hc H; [discriminate|].
  cbn [splitLoop] in H.
  destruct (Z.ltb_spec 0 (len s)) as [E0|E0]; [|congruence].
  destruct (Z.leb_spec (len s) L) as [E1|E1].
  - inversion H; subst. apply Forall_app; split; [assumption|].
    constructor; [lia | constructor].
  - eapply IH; [|exact H]. apply Forall_app; split; [assumption|].
    constructor; [|constructor].
    pose proof (cut_offset_range s) as Hr. cbv zeta in Hr.
    rewrite slice_prefix_len by lia. lia.
Qed.

End Limit.

Lemma splitHTMLIntoChunks_total (html : string) :
  exists chunks, splitHTMLIntoChunks html = Some chunks.
Proof.
  apply splitLoop_total; [unfold MAX_CHUNK_LENGTH|]; lia.
Qed.

(** What the code does guarantee about sizes: the limit plus the six
    characters of a closing tag. *)
Lemma splitHTMLIntoChunks_bound (html : string) (chunks : list string) :
  splitHTMLIntoChunks html = Some chunks ->
  Forall (fun c => len c <= MAX_CHUNK_LENGTH + 6) chunks.
Proof.
  apply splitLoop_bound; [unfold MAX_CHUNK_LENGTH; lia | constructor].
Qed.

End ChunkerFacts.

(** C3: for every document the chunker returns, and joining the chunks in
    order with nothing between them gives back the document, character for
    character. *)
Theorem chunks_reconstruct_document (html : string) :
  exists chunks,
    Chunker.splitHTMLIntoChunks html = Some chunks /\ JS.join "" chunks = html.
Proof.
  destruct (splitHTMLIntoChunks_total html) as [chunks H].
  exists chunks. split; [assumption|].
  apply splitLoop_join in H. exact H.
Qed.

(** C2 (the code at the failing input): on a document of 15007 letters with
    no closing tag the chunker cuts at offset 15006, so the first chunk, which
    is not the last, is longer than MAX_CHUNK_LENGTH. *)
Theorem first_chunk_exceeds_limit :
  Chunker.splitHTMLIntoChunks Chunker.long_plain_document
    = Some [JS.repeat_char "a"%char (Z.to_nat 15006); "a"]
  /\ MAX_CHUNK_LENGTH < JS.len (JS.repeat_char "a"%char (Z.to_nat 15006)).
Proof. split; vm_compute; reflexivity. Qed.



(** ** The combiner *)

Section CombinerFacts.

Import Combiner.

Lemma filtered_values_are_fragments (key : string)
    (selectorsList : list (gmap string string)) :
  omap id (List.filter truthy (map (fun s => s !! key) selectorsList))
  = fragments key selectorsList.
Proof.
  induction selectorsList as [|s rest IH]; [reflexivity|].
  cbn [map List.filter fragments].
  destruct (s !! key) as [[|c v]|]; cbn; auto. now rewrite IH.
Qed.

Lemma fragments_all_empty (key : string) (selectorsList : list (gmap string string)) :
  (forall s, s ∈ selectorsList -> s !! key = None \/ s !! key = Some "") ->
  fragments key selectorsList = [].
Proof.
  induction selectorsList as [|s rest IH]; intros H; [reflexivity|].
  cbn [fragments].
  destruct (H s) as [E|E]; [left | rewrite E | rewrite E];
    apply IH; intros s' Hs'; apply H; now right.
Qed.

Lemma combineSelectors_lookup (key : string) (selectorsList : list (gmap string string)) :
  key ∈ allKeys ->
  combineSelectors selectorsList !! key
  = Some (JS.join ", " (fragments key selectorsList)).
Proof.
  intros Hkey. unfold combineSelectors, allKeys in *. cbn [foldl].
  rewrite !filtered_values_are_fragments.
  repeat (apply elem_of_cons in Hkey as [->|Hkey];
          [ repeat (rewrite lookup_insert_ne by discriminate);
            now rewrite lookup_insert_eq | ]).
  now apply elem_of_nil in Hkey.
Qed.

End CombinerFacts.

(** C7: for each of the five fields, the combined value is the list of the
    non-empty values of that field, chunk after chunk, joined by a comma and
    a blank; if the field is empty or absent in every chunk the combined
    value is the empty string. *)
Theorem combined_field_joins_fragments (key : string)
    (selectorsList : list (gmap string string)) :
  key ∈ Combiner.allKeys ->
  Combiner.combineSelectors selectorsList !! key
    = Some (JS.join ", " (Combiner.fragments key selectorsList))
  /\ ((forall s, s ∈ selectorsList -> s !! key = None \/ s !! key = Some "") ->
      Combiner.combineSelectors selectorsList !! key = Some "").
Proof.
  intros Hkey. split; [now apply combineSelectors_lookup|].
  intros Hall. rewrite combineSelectors_lookup by assumption.
  now rewrite fragments_all_empty.
Qed.

Lemma combined_field_joins_fragments_witness :
  Combiner.combineSelectors
    [ {[ "titulo" := ".a"; "fecha" := "" ]}; {[ "descripcion" := ".d" ]};
      {[ "titulo" := ".b" ]} ] !! "titulo" = Some ".a, .b".
Proof.
  refine (eq_trans (proj1 (combined_field_joins_fragments "titulo" _ _)) _).
  - apply list_elem_of_further, list_elem_of_here.
  - vm_compute. reflexivity.
Defined.

(** ** The extractor *)

Section ExtractorFacts.

Import Extractor.

Lemma nonEmpty_true (s : string) : nonEmpty s = true <-> s <> "".
Proof. destruct s; cbn; split; intros; congruence. Qed.

Lemma kept_true (promo : Promotion) :
  kept promo = true <-> titulo promo <> "" \/ descripcion promo <> "".
Proof. unfold kept. rewrite orb_true_iff, !nonEmpty_true. tauto. Qed.

(** Without a selector, or with the empty one, nothing is looked up. *)
Lemma findElements_empty (r : Render) (selector : option string) :
  selector = None \/ selector = Some "" -> findElements r selector = [].
Proof. intros [->| ->]; reflexivity. Qed.

End ExtractorFacts.

Section ExtractorPage.

Import Extractor.

(** [findElements] gives the trimmed texts of the matched elements. *)
Lemma findElements_matched (r : Render) (selector : option string) :
  findElements r selector = map Page.textOf (Page.matched r selector).
Proof.
  unfold findElements, Page.matched.
  destruct selector as [[|c selector]|]; try reflexivity.
  destruct (querySelectorAll r (String c selector)); reflexivity.
Qed.

Lemma at_index_matched (r : Render) (selector : option string) (index : nat) :
  at_index (findElements r selector) index
  = Page.textAt (Page.matched r selector) index.
Proof.
  unfold at_index, Page.textAt. rewrite findElements_matched, list_lookup_fmap.
  now destruct (Page.matched r selector !! index).
Qed.

End ExtractorPage.

(** C4: a record is in the output of an extraction run exactly when it is
    the record of a title element of the page (the element at some position
    among those the title selector matches, with the texts at the same
    position of the other four field arrays and the address of the page) and
    its title or its description, taken after trimming, is not empty.  So a
    title element with text always gives a record, and a candidate whose
    title and description are both blank never does. *)
Theorem record_emitted_iff_nonempty (r : Render) (selectors : gmap string string)
    (promo : Promotion) :
  promo ∈ Extractor.extract r selectors
  <-> exists index element,
        Page.matched r (selectors !! "titulo") !! index = Some element
        /\ promo
           = {| medioPago := Page.textAt (Page.matched r (selectors !! "medioPago")) index;
                titulo := Page.textOf element;
                descripcion :=
                  Page.textAt (Page.matched r (selectors !! "descripcion")) index;
                url := href r;
                fecha := Page.textAt (Page.matched r (selectors !! "fecha")) index;
                condiciones :=
                  Page.textAt (Page.matched r (selectors !! "condiciones")) index |}
        /\ (Page.textOf element <> ""
            \/ Page.textAt (Page.matched r (selectors !! "descripcion")) index <> "").
Proof.
  unfold Extractor.extract.
  rewrite list_elem_of_In, filter_In, <- list_elem_of_In, kept_true.
  unfold Extractor.candidates. cbv zeta. rewrite elem_of_lookup_imap.
  split.
  - intros ((index & text & -> & Ht) & Hkept).
    rewrite findElements_matched, list_lookup_fmap in Ht.
    destruct (Page.matched r (selectors !! "titulo") !! index) as [element|] eqn:E;
      [|discriminate].
    cbn in Ht. injection Ht as <-.
    exists index, element. rewrite !at_index_matched in *. cbn in Hkept. auto.
  - intros (index & element & E & -> & Hkept). split.
    + exists index, (Page.textOf element).
      rewrite !at_index_matched.
      rewrite (findElements_matched r (selectors !! "titulo")), list_lookup_fmap, E. auto.
    + exact Hkept.
Qed.

(** On a page whose first title holds only white space and which has no
    description, the first candidate is dropped and the second is kept with
    its title trimmed. *)
Example blank_title_is_dropped :
  Extractor.extract Cases.padded {[ "titulo" := "h3" ]}
  = [ {| medioPago := ""; titulo := "2x1"; descripcion := "";
         url := "https://example.com/padded"; fecha := ""; condiciones := "" |} ].
Proof. vm_compute. reflexivity. Qed.

(** ** The monad *)

Section MonadFacts.

Context {A B : Type}.

Lemma bind_Ok_inv (m : M A) (f : A -> M B) (b : B) (t : list event) :
  bind m f = (Ok b, t) ->
  exists a t1 t2, m = (Ok a, t1) /\ f a = (Ok b, t2) /\ t = t1 ++ t2.
Proof.
  destruct m as [[a|e] t1]; cbn; [|discriminate].
  destruct (f a) as [r t2] eqn:E. intros [= -> <-].
  exists a, t1, t2. rewrite E. auto.
Qed.

Lemma bind_Ok (m : M A) (f : A -> M B) (a : A) (t : list event) :
  m = (Ok a, t) -> bind m f = (fst (f a), t ++ snd (f a)).
Proof. intros ->. cbn. destruct (f a); reflexivity. Qed.

Lemma bind_Throw (m : M A) (f : A -> M B) (e : exn) (t : list event) :
  m = (Throw e, t) -> bind m f = (Throw e, t).
Proof. intros ->. reflexivity. Qed.

End MonadFacts.

(** ** Sessions *)

Section SessionFacts.

Import ScrapeSession.

Lemma release_returns (r : Render) : exists t, release r = (Ok tt, t).
Proof.
  unfold release.
  destruct (launch r) as [[]|e1], (newPage r) as [[]|e2],
           (closePage r) as [[]|e3], (closeBrowser r) as [[]|e4];
    cbn; eauto.
Qed.

(** A session never throws: it returns a success with records or a
    failure with a message. *)
Lemma scrapeUrl_returns (w : World) (s : Session) (url : string) :
  exists outcome t,
    scrapeUrl w s url = (Ok outcome, t)
    /\ ((success outcome = true /\ exists records, data outcome = Some records)
        \/ (success outcome = false /\ data outcome = None
            /\ exists m, error outcome = Some m)).
Proof.
  unfold scrapeUrl.
  destruct (release_returns (render s)) as [t' ->].
  match goal with
  | |- context [try_catch ?m ?h] => destruct m as [[outcome|e] t] eqn:E
  end; cbn.
  - exists outcome, (t ++ t'). split; [reflexivity|]. left.
    repeat (apply bind_Ok_inv in E as (? & ? & ? & _ & E & _)).
    injection E as <- _. cbn. eauto.
  - eexists _, _. split; [reflexivity|]. right. cbn. eauto.
Qed.

End SessionFacts.

(** ** The route *)

Section RouteFacts.

Import Route.

Variable w : World.

Lemma outcomes_length i urls results :
  outcomes w i urls results -> length results = length urls.
Proof. induction 1; cbn; congruence. Qed.

Lemma outcomes_failed_message i urls results :
  outcomes w i urls results ->
  Forall (fun r => success r = false -> exists m, error r = Some m) results.
Proof.
  induction 1 as [|i url urls r rs t H _ IH]; constructor; [|assumption].
  destruct (scrapeUrl_returns w (session w i) url) as (r' & t' & E & Hr).
  rewrite E in H. injection H as <- <-.
  intros Hf. destruct Hr as [[Hs _]|(_ & _ & Hm)]; [congruence | assumption].
Qed.

Lemma allSessions_returns (urls : list string) :
  forall i, exists results t,
    allSessions w i urls = (Ok results, t) /\ outcomes w i urls results.
Proof.
  induction urls as [|url urls IH]; intros i; cbn [allSessions].
  - exists [], []. split; [reflexivity | constructor].
  - destruct (scrapeUrl_returns w (session w i) url) as (r & t & E & _).
    destruct (IH (S i)) as (rs & t' & E' & Hrs).
    rewrite E. cbn. rewrite E'. cbn.
    eexists _, _. split; [reflexivity|]. econstructor; eassumption.
Qed.

(** A request that passes validation is answered with status 200 and the
    batch body, whatever the sessions did. *)
Lemma POST_valid (req : Request) (body : json) (urls : list string) :
  req_json req = Ok body ->
  urlSchema_parse w body = Ok urls ->
  exists results t,
    outcomes w 0 urls results
    /\ POST w req
       = (Ok {| status := 200;
                body := batchBody (promotionsOf results) (errorsOf results)
                                  (endTime w - startTime w) |}, t).
Proof.
  intros Hreq Hurls.
  destruct (allSessions_returns urls 0) as (results & t & E & Hres).
  exists results, (t ++ []). split; [assumption|].
  unfold POST. rewrite Hreq. cbn. rewrite Hurls. cbn. rewrite E. cbn.
  rewrite app_nil_r. reflexivity.
Qed.

Lemma promotionsOf_elem (results : list ScrapingResult) (p : Promotion) :
  p ∈ promotionsOf results
  <-> exists r records,
        r ∈ results /\ success r = true /\ data r = Some records /\ p ∈ records.
Proof.
  unfold promotionsOf. rewrite list_elem_of_In, in_flat_map. split.
  - intros (r & Hr & Hp). apply filter_In in Hr as [Hr Hs].
    destruct (data r) as [records|] eqn:E; cbn in Hp; [|contradiction].
    exists r, records. rewrite !list_elem_of_In. auto.
  - intros (r & records & Hr & Hs & E & Hp).
    exists r. rewrite filter_In, E. cbn. rewrite <- !list_elem_of_In. auto.
Qed.

Lemma errorsOf_length (results : list ScrapingResult) :
  length (errorsOf results)
  = length (List.filter (fun r => negb (success r)) results).
Proof. unfold errorsOf. apply length_map. Qed.

Lemma errorsOf_messages (results : list ScrapingResult) :
  Forall (fun r => success r = false -> exists m, error r = Some m) results ->
  exists msgs, errorsOf results = map Some msgs.
Proof.
  unfold errorsOf. induction 1 as [|r rs Hr _ [msgs IH]]; cbn.
  - exists []. reflexivity.
  - destruct (success r) eqn:E; cbn; [exists msgs; assumption|].
    destruct (Hr eq_refl) as [m Hm]. exists (m :: msgs). cbn. congruence.
Qed.

End RouteFacts.

(** C1: for a batch of N URLs that passes validation, the route does not
    throw and answers 200 with an object.  [results] being the N session
    outcomes in the order of the URLs and K the number of failed ones: the
    [errors] member is the array of the K messages of the failed sessions
    (it is left out when K is 0), and the [promotions] member is the array of
    the records of the N - K successful sessions, session after session, each
    written with its six fields; a record is in it exactly when a successful
    session produced it. *)
Theorem batch_isolates_session_failures (w : World) (req : Route.Request)
    (body : json) (urls : list string) :
  Route.req_json req = Ok body ->
  Route.urlSchema_parse w body = Ok urls ->
  exists results t members promotions errors,
    Route.outcomes w 0 urls results
    /\ length results = length urls
    /\ Route.POST w req = (Ok {| Route.status := 200; Route.body := JObject members |}, t)
    /\ map Some errors = map error (List.filter (fun r => negb (success r)) results)
    /\ length errors = length (List.filter (fun r => negb (success r)) results)
    /\ (length errors + length (List.filter success results) = length urls)%nat
    /\ member "errors" members
       = match errors with
         | [] => None
         | _ => Some (JArray (map JString errors))
         end
    /\ promotions
       = flat_map (fun r => match data r with Some records => records | None => [] end)
                  (List.filter success results)
    /\ member "promotions" members
       = Some (JArray (map (fun p =>
                              JObject [ ("medioPago", JString (medioPago p));
                                        ("titulo", JString (titulo p));
                                        ("descripcion", JString (descripcion p));
                                        ("url", JString (url p));
                                        ("fecha", JString (fecha p));
                                        ("condiciones", JString (condiciones p)) ])
                           promotions))
    /\ (forall p, p ∈ promotions
        <-> exists r records,
              r ∈ results /\ success r = true /\ data r = Some records /\ p ∈ records).
Proof.
  intros Hreq Hurls.
  destruct (POST_valid w req body urls Hreq Hurls) as (results & t & Hres & HP).
  destruct (errorsOf_messages results (outcomes_failed_message w _ _ _ Hres)) as [errors Herrors].
  pose proof (errorsOf_length results) as Hlen.
  assert (length errors = length (List.filter (fun r => negb (success r)) results)) as Hk.
  { rewrite <- Hlen, Herrors. now rewrite length_map. }
  exists results, t.
  eexists _, (Route.promotionsOf results), errors.
  split; [assumption|].
  split; [eapply outcomes_length; eassumption|].
  split.
  { rewrite HP. unfold Route.batchBody, stringify_object. reflexivity. }
  split; [rewrite <- Herrors; reflexivity|].
  split; [assumption|].
  split.
  { rewrite Hk, <- (outcomes_length _ _ _ _ Hres).
    clear. induction results as [|r rs IH]; [reflexivity|].
    cbn. destruct (success r); cbn; lia. }
  split.
  { rewrite Herrors. destruct errors as [|m errors]; cbn; [reflexivity|].
    now rewrite map_map. }
  split; [reflexivity|].
  split.
  { rewrite Herrors. destruct errors as [|m errors]; reflexivity. }
  apply promotionsOf_elem.
Qed.

Lemma batch_isolates_session_failures_witness :
  exists members items,
    fst (Route.POST Cases.mixed Cases.two_urls_request)
    = Ok {| Route.status := 200; Route.body := JObject members |}
    /\ member "errors" members
       = Some (JArray [JString "Navigation timeout of 30000 ms exceeded"])
    /\ member "promotions" members = Some (JArray items)
    /\ length items = 3%nat.
Proof.
  destruct (batch_isolates_session_failures Cases.mixed Cases.two_urls_request
              (JObject [("urls", JArray (map JString Cases.two_urls))])
              Cases.two_urls eq_refl eq_refl)
    as (results & t & members & promotions & errors & _ & _ & HP & _).
  exists members. vm_compute in HP. injection HP as <- _.
  eexists. repeat split; reflexivity.
Defined.

Section ResponseFacts.

Import Route.

Lemma errorsOf_nil (results : list ScrapingResult) :
  errorsOf results = [] <-> Forall (fun r => success r = true) results.
Proof.
  unfold errorsOf. induction results as [|r rs IH]; cbn.
  - split; [constructor | reflexivity].
  - destruct (success r) eqn:E; cbn.
    + rewrite IH. split; [now constructor | now inversion 1].
    + split; [discriminate | inversion 1; congruence].
Qed.

Lemma errorsOf_cons (results : list ScrapingResult) :
  errorsOf results <> [] -> Exists (fun r => success r = false) results.
Proof.
  unfold errorsOf. induction results as [|r rs IH]; cbn; [congruence|].
  destruct (success r) eqn:E; cbn; intros H.
  - right. now apply IH.
  - now left.
Qed.

Lemma urlSchema_parse_throws (w : World) (body : json) (e : exn) :
  urlSchema_parse w body = Throw e -> exists issues, e = ZodError issues.
Proof.
  unfold urlSchema_parse.
  destruct body as [| | | | |members]; try (intros [= <-]; eauto).
  destruct (member "urls" members) as [[| | | |items|]|]; try (intros [= <-]; eauto).
  destruct (_ ++ _); intros [= <-]; eauto.
Qed.

(** Once the body of the request has been read, the answer is 200 or 400:
    the branch of the handler that answers 422 is never taken. *)
Lemma parsed_request_status (w : World) (req : Request) (body : json) :
  req_json req = Ok body ->
  exists resp t, POST w req = (Ok resp, t) /\ (status resp = 200 \/ status resp = 400).
Proof.
  intros Hreq.
  destruct (urlSchema_parse w body) as [urls|e] eqn:E.
  - destruct (POST_valid w req body urls Hreq E) as (results & t & _ & ->).
    eexists _, _. split; [reflexivity|]. now left.
  - destruct (urlSchema_parse_throws w body e E) as [issues ->].
    unfold POST. rewrite Hreq. cbn. rewrite E. cbn.
    eexists _, _. split; [reflexivity|]. now right.
Qed.

End ResponseFacts.

(** C9 (the claim at a concrete request): the 200 answer of the scenario has
    no member named executionTimeMs; the elapsed time is under
    executionTime. *)
Lemma scenario_body_has_no_executionTimeMs :
  exists resp t members,
    Route.POST (Scenario.world true) Scenario.request = (Ok resp, t)
    /\ Route.status resp = 200
    /\ Route.body resp = JObject members
    /\ member "executionTimeMs" members = None
    /\ member "executionTime" members = Some (JNumber 3000).
Proof. eexists _, _, _. repeat split; vm_compute; reflexivity. Qed.

(** C9 (amended): a request that passes validation is answered with status
    200 and an object whose members are promotions (the array of the
    records), executionTime (a number) and, between the two, errors (a
    non-empty array of strings) exactly when some session failed. *)
Theorem success_body_shape (w : World) (req : Route.Request) (body : json)
    (urls : list string) :
  Route.req_json req = Ok body ->
  Route.urlSchema_parse w body = Ok urls ->
  exists results t members,
    Route.outcomes w 0 urls results
    /\ Route.POST w req = (Ok {| Route.status := 200; Route.body := JObject members |}, t)
    /\ member "promotions" members
       = Some (JArray (map Route.promotionJson (Route.promotionsOf results)))
    /\ member "executionTime" members = Some (JNumber (endTime w - startTime w))
    /\ ((Forall (fun r => success r = true) results
         /\ map fst members = ["promotions"; "executionTime"])
        \/ (Exists (fun r => success r = false) results
            /\ map fst members = ["promotions"; "errors"; "executionTime"]
            /\ exists msgs, msgs <> []
                 /\ length msgs = length (List.filter (fun r => negb (success r)) results)
                 /\ member "errors" members = Some (JArray (map JString msgs)))).
Proof.
  intros Hreq Hurls.
  destruct (POST_valid w req body urls Hreq Hurls) as (results & t & Hres & HP).
  destruct (errorsOf_messages results (outcomes_failed_message w _ _ _ Hres)) as [msgs Hmsgs].
  pose proof (errorsOf_length results) as Hlen.
  pose proof (errorsOf_nil results) as Hnil.
  rewrite HP. unfold Route.batchBody, stringify_object.
  rewrite Hmsgs in Hlen, Hnil |- *. clear HP.
  destruct msgs as [|m msgs]; cbn [map length Z.of_nat Z.ltb Z.compare omap fst snd].
  - eexists results, t, _. split; [assumption|]. split; [reflexivity|].
    cbn. repeat split. left. split; [now apply Hnil | reflexivity].
  - eexists results, t, _. split; [assumption|]. split; [reflexivity|].
    cbn. repeat split. right. split; [|split; [reflexivity|]].
    + apply errorsOf_cons. rewrite Hmsgs. discriminate.
    + exists (m :: msgs). split; [discriminate|]. split.
      * rewrite <- Hlen. cbn. now rewrite length_map.
      * rewrite map_map. reflexivity.
Qed.

Lemma success_body_shape_witness :
  exists members,
    fst (Route.POST (Scenario.world true) Scenario.request)
      = Ok {| Route.status := 200; Route.body := JObject members |}
    /\ map fst members = ["promotions"; "executionTime"].
Proof.
  destruct (success_body_shape (Scenario.world true) Scenario.request
              (JObject [("urls", JArray [JString "https://example.com/promos"])])
              ["https://example.com/promos"] eq_refl eq_refl)
    as (results & t & members & _ & HP & _).
  exists members. rewrite HP. split; [reflexivity|].
  vm_compute in HP. injection HP as <- _. reflexivity.
Defined.

(** ** Inference over the chunks *)

Section InferenceFacts.

Import Inference.

Variables (w : World) (s : Session).

(** A call that fails only leaves its events behind: the counter and the
    results are as before. *)
Lemma processLoop_failed_chunk (i : nat) (chunk : string) (rest : list string)
    (requestCount : Z) (results : list (gmap string string)) (e : exn)
    (t : list event) :
  requestCount < MAX_REQUESTS_PER_MINUTE ->
  generateSelector w (completion s i chunk) chunk = (Throw e, t) ->
  processLoop w s i (chunk :: rest) requestCount results
  = (fst (processLoop w s (S i) rest requestCount results),
     t ++ snd (processLoop w s (S i) rest requestCount results)).
Proof.
  intros Hc Hg. cbn [processLoop].
  destruct (Z.leb_spec MAX_REQUESTS_PER_MINUTE requestCount) as [?|_]; [lia|].
  rewrite Hg. cbn.
  destruct (processLoop w s (S i) rest requestCount results) as [r t'].
  cbn. now rewrite app_nil_r.
Qed.

(** If every call fails, the list of selector maps stays as it was. *)
Lemma processLoop_all_failed (chunks : list string) :
  forall i requestCount results,
    requestCount < MAX_REQUESTS_PER_MINUTE ->
    (forall j chunk, chunks !! j = Some chunk ->
       exists e t, generateSelector w (completion s (i + j) chunk) chunk = (Throw e, t)) ->
    exists t, processLoop w s i chunks requestCount results = (Ok results, t).
Proof.
  induction chunks as [|chunk rest IH]; intros i requestCount results Hc Hfail.
  - exists []. reflexivity.
  - destruct (Hfail 0%nat chunk eq_refl) as (e & t & Hg).
    rewrite Nat.add_0_r in Hg.
    rewrite (processLoop_failed_chunk _ _ _ _ _ _ _ Hc Hg).
    destruct (IH (S i) requestCount results Hc) as [t' ->].
    + intros j c Hj. replace (S i + j)%nat with (i + S j)%nat by lia.
      apply Hfail. exact Hj.
    + eexists. reflexivity.
Qed.

(** A call that succeeds is counted, after the suspension that the counter
    may have asked for. *)
Lemma generateSelector_answered (answer : result (option string)) (html : string)
    (c : ascii) (content : string) (selectors : gmap string string) :
  apiKey w = true ->
  answer = Ok (Some (String c content)) ->
  jsonParse w (String c content) = Some selectors ->
  generateSelector w answer html = (Ok (String c content), [InferenceCall html]).
Proof.
  intros Hk -> Hp. unfold generateSelector. rewrite Hk. cbn. rewrite Hp. reflexivity.
Qed.

Lemma processLoop_answered_chunk (i : nat) (chunk : string) (rest : list string)
    (requestCount : Z) (results : list (gmap string string))
    (c : ascii) (content : string) (selectors : gmap string string) :
  apiKey w = true ->
  completion s i chunk = Ok (Some (String c content)) ->
  jsonParse w (String c content) = Some selectors ->
  let suspended := MAX_REQUESTS_PER_MINUTE <=? requestCount in
  let count := if suspended then 0 else requestCount in
  let next := processLoop w s (S i) rest (count + 1) (results ++ [selectors]) in
  processLoop w s i (chunk :: rest) requestCount results
  = (fst next,
     (if suspended then [Sleep RATE_LIMIT_DELAY] else [])
       ++ InferenceCall chunk :: snd next).
Proof.
  intros Hk Hc Hp. cbv zeta. cbn [processLoop].
  rewrite (generateSelector_answered _ chunk c content selectors Hk Hc Hp).
  unfold JSON_parse. 
  destruct (MAX_REQUESTS_PER_MINUTE <=? requestCount); cbn; rewrite Hp; cbn;
    destruct (processLoop w s (S i) rest _ (results ++ [selectors])) as [r t];
    cbn; now rewrite ?app_nil_r.
Qed.

(** When no call fails, the counter does its work: no run of calls between
    two suspensions is longer than the budget. *)
Lemma processLoop_budget (chunks : list string) :
  forall i requestCount results best,
    apiKey w = true ->
    (forall j chunk, chunks !! j = Some chunk ->
       exists c content selectors,
         completion s (i + j) chunk = Ok (Some (String c content))
         /\ jsonParse w (String c content) = Some selectors) ->
    0 <= requestCount <= MAX_REQUESTS_PER_MINUTE ->
    max_calls_run requestCount best
      (snd (processLoop w s i chunks requestCount results))
    <= Z.max MAX_REQUESTS_PER_MINUTE best.
Proof.
  induction chunks as [|chunk rest IH]; intros i requestCount results best Hk Hall Hc.
  - cbn. lia.
  - destruct (Hall 0%nat chunk eq_refl) as (c & content & selectors & Ha & Hp).
    rewrite Nat.add_0_r in Ha.
    rewrite (processLoop_answered_chunk i chunk rest requestCount results
               c content selectors Hk Ha Hp).
    cbn [snd].
    assert (forall j chunk', rest !! j = Some chunk' ->
              exists c content selectors,
                completion s (S i + j) chunk' = Ok (Some (String c content))
                /\ jsonParse w (String c content) = Some selectors) as Hrest.
    { intros j chunk' Hj. replace (S i + j)%nat with (i + S j)%nat by lia.
      now apply Hall. }
    destruct (Z.leb_spec MAX_REQUESTS_PER_MINUTE requestCount) as [Hge|Hlt];
      cbn [app max_calls_run].
    + etransitivity; [apply IH; auto; unfold MAX_REQUESTS_PER_MINUTE; lia|]. lia.
    + apply IH; auto. lia.
Qed.

Lemma answered_calls_respect_budget (chunks : list string) :
  apiKey w = true ->
  (forall j chunk, chunks !! j = Some chunk ->
     exists c content selectors,
       completion s j chunk = Ok (Some (String c content))
       /\ jsonParse w (String c content) = Some selectors) ->
  max_calls_between_sleeps (snd (processHTMLChunks w s chunks))
  <= MAX_REQUESTS_PER_MINUTE.
Proof.
  intros Hk Hall.
  pose proof (processLoop_budget chunks 0%nat 0 [] 0 Hk Hall) as H.
  unfold max_calls_between_sleeps, processHTMLChunks.
  unfold MAX_REQUESTS_PER_MINUTE in *. lia.
Qed.

(** Without the credential every call fails before it is sent. *)
Lemma generateSelector_without_key (answer : result (option string)) (html : string) :
  apiKey w = false ->
  generateSelector w answer html
  = (Throw (SelectorGenerationError "OPENAI_API_KEY no está configurada"), []).
Proof. intros H. unfold generateSelector. rewrite H. reflexivity. Qed.

End InferenceFacts.

(** C10: if the render engine works and the inference call fails for every
    chunk of the document, the combined map binds the five keys to the empty
    string, the extraction finds nothing, and the session returns a success
    with an empty list of records. *)
Theorem session_without_selectors_succeeds (w : World) (s : Session)
    (url html : string) :
  launch (render s) = Ok tt ->
  newPage (render s) = Ok tt ->
  configure (render s) = Ok tt ->
  goto (render s) url = Ok tt ->
  outerHTML (render s) = Ok html ->
  evaluate (render s) = Ok tt ->
  (forall j chunk,
     ScrapeSession.chunksOf (Sanitizer.sanitizeHTML html) !! j = Some chunk ->
     exists e t,
       Inference.generateSelector w (completion s j chunk) chunk = (Throw e, t)) ->
  (exists t, Inference.processHTMLChunks w s
               (ScrapeSession.chunksOf (Sanitizer.sanitizeHTML html)) = (Ok [], t))
  /\ (forall key, key ∈ Combiner.allKeys ->
        Combiner.combineSelectors [] !! key = Some "")
  /\ Extractor.extract (render s) (Combiner.combineSelectors []) = []
  /\ exists t,
       ScrapeSession.scrapeUrl w s url
       = (Ok {| success := true; data := Some []; error := None |}, t).
Proof.
  intros Hl Hn Hc Hg Hh He Hfail.
  destruct (processLoop_all_failed w s _ 0%nat 0 [] ltac:(unfold MAX_REQUESTS_PER_MINUTE; lia) Hfail)
    as [t Ht].
  split; [exists t; exact Ht|].
  split; [intros key Hkey; now rewrite combineSelectors_lookup|].
  split; [reflexivity|].
  destruct (release_returns (render s)) as [t' Hr].
  unfold ScrapeSession.scrapeUrl, ScrapeSession.setupPuppeteer.
  rewrite Hr, Hl, Hn, Hc, Hg, Hh, He.
  cbn -[Sanitizer.sanitizeHTML ScrapeSession.chunksOf Inference.processHTMLChunks
        Extractor.extract Combiner.combineSelectors].
  unfold Inference.processHTMLChunks. rewrite Ht.
  cbn -[Extractor.extract Combiner.combineSelectors].
  eexists. reflexivity.
Qed.

Lemma session_without_selectors_succeeds_witness :
  exists t,
    ScrapeSession.scrapeUrl (Scenario.world false) (session (Scenario.world false) 0)
      "https://example.com/promos"
    = (Ok {| success := true; data := Some []; error := None |}, t).
Proof.
  refine (proj2 (proj2 (proj2
    (session_without_selectors_succeeds (Scenario.world false)
       (session (Scenario.world false) 0) "https://example.com/promos"
       _ eq_refl eq_refl eq_refl eq_refl eq_refl eq_refl _)))).
  intros j chunk _. eexists _, _. apply generateSelector_without_key. reflexivity.
Defined.

(** C6 (the code at the failing input): without the credential, the request
    of the scenario is answered with status 200 and no promotions; no 422 is
    produced. *)
Theorem missing_credential_answers_200 :
  Route.POST (Scenario.world false) Scenario.request
  = (Ok {| Route.status := 200;
           Route.body := JObject [("promotions", JArray []);
                                  ("executionTime", JNumber 3000)] |},
     [ClosePage; CloseBrowser]).
Proof. vm_compute. reflexivity. Qed.

(** C5 (the code at the failing input): four chunks sent to a service whose
    answers are not JSON give four calls in a row and no suspension. *)
Theorem failed_calls_are_not_counted :
  Inference.processHTMLChunks (Scenario.world true) Scenario.deaf Scenario.four_chunks
  = (Ok [], [InferenceCall "c1"; InferenceCall "c2"; InferenceCall "c3";
             InferenceCall "c4"])
  /\ MAX_REQUESTS_PER_MINUTE
     < Inference.max_calls_between_sleeps
         (snd (Inference.processHTMLChunks (Scenario.world true) Scenario.deaf
                 Scenario.four_chunks)).
Proof. split; vm_compute; reflexivity. Qed.

(** ** Regular expressions and the sanitizer *)

Section RegexFacts.

Import Regex.

(** The patterns on small inputs: an element is removed with its content,
    whatever the case of its tag; a longer tag name is not touched; the
    comment pattern is lazy. *)
Example block_removes_element :
  replace gi (Sanitizer.block "nav") "" "a<NAV x><a>b</a></nav>c<navy></navy>"
  = "ac<navy></navy>".
Proof. vm_compute. reflexivity. Qed.

Example comment_is_lazy :
  replace g Sanitizer.comment "" "a<!-- x --><!---->b-->" = "ab-->".
Proof. vm_compute. reflexivity. Qed.

Example sanitizeHTML_sample :
  Sanitizer.sanitizeHTML
    ("<div class=" +:+ String Sanitizer.quote "promo" +:+ String Sanitizer.quote " data-id="
     +:+ String Sanitizer.quote "7" +:+ String Sanitizer.quote "><script>x()</script>  20%   off </div>")
  = "<div> 20% off </div>".
Proof. vm_compute. reflexivity. Qed.

(** A pattern that matches nowhere leaves the text as it is. *)
Lemma replace_scan_without_match (fl : flags) (r : regex) (repl : string) (s : string) :
  forall prev, has_match fl r prev s = false ->
    replace_scan fl r repl 0 prev s = s.
Proof.
  induction s as [|c s IH]; intros prev H; cbn [has_match replace_scan] in *.
  - destruct (match_here fl r prev ""); [discriminate | reflexivity].
  - destruct (match_here fl r prev (String c s)); [discriminate|].
    f_equal. now apply IH.
Qed.

Lemma replace_without_match (fl : flags) (r : regex) (repl : string) (s : string) :
  has_match fl r None s = false -> replace fl r repl s = s.
Proof. apply replace_scan_without_match. Qed.

End RegexFacts.

Section TidyFacts.

Import JS Regex Sanitizer.

Lemma line_terminator_is_blank (c : ascii) :
  isLineTerminator c = true -> isWhiteSpace c = true.
Proof.
  unfold isLineTerminator, isWhiteSpace. intros H.
  apply orb_true_iff in H as [H|H]; apply Z.eqb_eq in H; rewrite H; reflexivity.
Qed.

Lemma squeezed_cons (c : ascii) (s : string) :
  squeezed (String c s) = true
  <-> (isWhiteSpace c = true -> c = " "%char /\ starts_blank s = false)
      /\ squeezed s = true.
Proof.
  cbn [squeezed]. rewrite andb_true_iff, orb_true_iff, andb_true_iff,
    !negb_true_iff, Ascii.eqb_eq.
  destruct (isWhiteSpace c); intuition congruence.
Qed.

Lemma squeezed_no_line_break (s : string) :
  squeezed s = true -> has_line_break s = false.
Proof.
  induction s as [|c s IH]; [reflexivity|].
  rewrite squeezed_cons. intros [Hc Hs]. cbn [has_line_break].
  rewrite (IH Hs), orb_false_r.
  destruct (isLineTerminator c) eqn:E; [|reflexivity].
  destruct (Hc (line_terminator_is_blank c E)) as [-> _]. discriminate.
Qed.

(** *** Squeezing *)

Lemma squeeze_run_starts (s : string) : starts_blank (squeeze true s) = false.
Proof.
  induction s as [|c s IH]; [reflexivity|]. cbn [squeeze].
  destruct (isWhiteSpace c) eqn:E; [assumption|]. cbn. exact E.
Qed.

Lemma squeeze_squeezed (s : string) : forall b, squeezed (squeeze b s) = true.
Proof.
  induction s as [|c s IH]; intros b; [reflexivity|]. cbn [squeeze].
  destruct (isWhiteSpace c) eqn:E; [destruct b|]; auto.
  - apply squeezed_cons. split; [|apply IH].
    intros _. split; [reflexivity | apply squeeze_run_starts].
  - apply squeezed_cons. split; [congruence | apply IH].
Qed.

Lemma squeeze_not_blank (s : string) :
  starts_blank s = false -> squeeze true s = squeeze false s.
Proof. destruct s as [|c s]; cbn; [reflexivity|]. now intros ->. Qed.

Lemma squeeze_fixed (s : string) : squeezed s = true -> squeeze false s = s.
Proof.
  induction s as [|c s IH]; [reflexivity|].
  rewrite squeezed_cons. intros [Hc Hs]. cbn [squeeze].
  destruct (isWhiteSpace c) eqn:E.
  - destruct (Hc eq_refl) as [-> Hb].
    rewrite (squeeze_not_blank _ Hb), (IH Hs). reflexivity.
  - now rewrite (IH Hs).
Qed.

(** *** Trimming *)

Lemma trimStart_starts (s : string) : starts_blank (trimStart s) = false.
Proof.
  induction s as [|c s IH]; [reflexivity|]. cbn [trimStart].
  destruct (isWhiteSpace c) eqn:E; [assumption | exact E].
Qed.

Lemma trimStart_fixed (s : string) : starts_blank s = false -> trimStart s = s.
Proof. destruct s as [|c s]; cbn; [reflexivity|]. now intros ->. Qed.

Lemma trimStart_squeezed (s : string) :
  squeezed s = true -> squeezed (trimStart s) = true.
Proof.
  induction s as [|c s IH]; [reflexivity|]. intros H. cbn [trimStart].
  destruct (isWhiteSpace c); [|assumption].
  apply IH. now apply squeezed_cons in H.
Qed.

Lemma trimEnd_first (s : string) :
  trimEnd s = "" \/ starts_blank (trimEnd s) = starts_blank s.
Proof.
  destruct s as [|c s]; [now left|]. cbn [trimEnd].
  destruct (trimEnd s); [destruct (isWhiteSpace c) eqn:E|]; auto.
Qed.

Lemma trimEnd_squeezed (s : string) :
  squeezed s = true -> squeezed (trimEnd s) = true.
Proof.
  induction s as [|c s IH]; [reflexivity|].
  rewrite squeezed_cons. intros [Hc Hs]. specialize (IH Hs). cbn [trimEnd].
  destruct (trimEnd_first s) as [E|E].
  - rewrite E. destruct (isWhiteSpace c) eqn:Ec; [reflexivity|].
    apply squeezed_cons. split; [congruence | reflexivity].
  - destruct (trimEnd s) as [|d t] eqn:Et.
    + destruct (isWhiteSpace c) eqn:Ec; [reflexivity|].
      apply squeezed_cons. split; [congruence | reflexivity].
    + apply squeezed_cons. split; [|assumption].
      intros Hw. destruct (Hc Hw) as [-> Hb]. split; [reflexivity|].
      now rewrite E.
Qed.

Lemma trimEnd_idempotent (s : string) : trimEnd (trimEnd s) = trimEnd s.
Proof.
  induction s as [|c s IH]; [reflexivity|]. cbn [trimEnd].
  destruct (trimEnd s) as [|d t] eqn:Et.
  - destruct (isWhiteSpace c) eqn:Ec; [reflexivity|]. cbn. now rewrite Ec.
  - cbn [trimEnd]. cbn [trimEnd] in IH. now rewrite IH.
Qed.

Lemma trim_fixed (s : string) : trim (trim s) = trim s.
Proof.
  unfold trim.
  rewrite (trimStart_fixed (trimEnd (trimStart s))).
  - apply trimEnd_idempotent.
  - destruct (trimEnd_first (trimStart s)) as [-> | ->];
      [reflexivity | apply trimStart_starts].
Qed.

Lemma trim_squeezed (s : string) : squeezed s = true -> squeezed (trim s) = true.
Proof. intros H. unfold trim. now apply trimEnd_squeezed, trimStart_squeezed. Qed.

End TidyFacts.

(** The texts the extractor works with are trimmed. *)
Lemma findElements_trimmed (r : Render) (selector : option string) (text : string) :
  text ∈ Extractor.findElements r selector -> JS.trim text = text.
Proof.
  unfold Extractor.findElements.
  destruct selector as [[|c sel]|]; try (intros H; now apply elem_of_nil in H).
  destruct (querySelectorAll r (String c sel)) as [elements|e];
    [|intros H; now apply elem_of_nil in H].
  intros H. apply list_elem_of_In, in_map_iff in H as ([t|] & <- & _);
    [apply trim_fixed | reflexivity].
Qed.

Section WhiteSpaceSteps.

Import JS Regex Sanitizer.


Lemma is_space_spec (c : ascii) : is_space c = isWhiteSpace c.
Proof. unfold is_space, cls_matches. cbn. now rewrite orb_false_r. Qed.

Lemma trimStart_length (s : string) :
  (String.length (trimStart s) + leading_blanks s = String.length s)%nat.
Proof.
  induction s as [|c s IH]; [reflexivity|]. cbn [trimStart leading_blanks].
  destruct (isWhiteSpace c); cbn [String.length]; lia.
Qed.

(** The greedy repetition of [\s] eats the whole run of white space. *)
Lemma star_spaces (fuel : nat) :
  forall prev s, (String.length s <= fuel)%nat ->
    star_loop true (one_char is_space) accept fuel prev s = Some (trimStart s).
Proof.
  induction fuel as [|fuel IH]; intros prev s Hf.
  - destruct s; [reflexivity | cbn in Hf; lia].
  - cbn [star_loop]. destruct s as [|c s]; [reflexivity|].
    unfold one_char at 1. rewrite is_space_spec. cbn [trimStart].
    destruct (isWhiteSpace c); [|reflexivity].
    replace (String.length s <? String.length (String c s))%nat with true
      by (symmetry; apply Nat.ltb_lt; cbn; lia).
    rewrite IH by (cbn in Hf; lia). reflexivity.
Qed.

Lemma match_spaces (prev : option ascii) (s : string) :
  match_here g spaces prev s
  = match s with
    | EmptyString => None
    | String c s' => if isWhiteSpace c then Some (trimStart s') else None
    end.
Proof.
  unfold match_here, spaces, plus, space. cbn [rmatch].
  fold is_space. destruct s as [|c s]; [reflexivity|].
  unfold one_char at 1. rewrite is_space_spec.
  destruct (isWhiteSpace c); [|reflexivity].
  apply star_spaces. lia.
Qed.

(** Replacing every run of white space by a blank is [squeeze]. *)
Lemma replace_spaces_scan (s : string) :
  forall prev,
    replace_scan g spaces " " 0 prev s = squeeze false s
    /\ replace_scan g spaces " " (leading_blanks s) prev s = squeeze true s.
Proof.
  induction s as [|c s IH]; intros prev.
  - split; reflexivity.
  - assert (replace_scan g spaces " " 0 prev (String c s) = squeeze false (String c s)) as E0.
    { cbn [replace_scan squeeze]. rewrite match_spaces.
      destruct (isWhiteSpace c).
      - replace (String.length (String c s) - String.length (trimStart s))%nat
          with (S (leading_blanks s))
          by (pose proof (trimStart_length s); cbn [String.length]; lia).
        rewrite (proj2 (IH (Some c))). reflexivity.
      - now rewrite (proj1 (IH (Some c))). }
    split; [exact E0|].
    cbn [leading_blanks]. destruct (isWhiteSpace c) eqn:Ec.
    + cbn [replace_scan squeeze]. rewrite Ec. apply IH.
    + rewrite E0. cbn [squeeze]. now rewrite Ec.
Qed.

Lemma replace_spaces (s : string) : replace g spaces " " s = squeeze false s.
Proof. apply replace_spaces_scan. Qed.

(** *** Blank lines *)

Lemma is_break_spec (c : ascii) : is_break c = isLineTerminator c.
Proof.
  destruct c as [[] [] [] [] [] [] [] []]; reflexivity.
Qed.

Lemma break_needed (k : cont) (prev : option ascii) (s : string) :
  has_line_break s = false -> one_char is_break k prev s = None.
Proof.
  destruct s as [|c s]; [reflexivity|]. cbn [has_line_break one_char].
  rewrite is_break_spec. now intros [-> _]%orb_false_iff.
Qed.

Lemma star_then_break (k : cont) (p : ascii -> bool) (fuel : nat) :
  forall prev s, has_line_break s = false ->
    star_loop true (one_char p) (one_char is_break k) fuel prev s = None.
Proof.
  induction fuel as [|fuel IH]; intros prev s Hs; cbn [star_loop].
  - now apply break_needed.
  - rewrite (break_needed k prev s Hs).
    destruct s as [|c s]; [reflexivity|]. cbn [one_char].
    destruct (p c); [|reflexivity].
    destruct (String.length s <? String.length (String c s))%nat; [|reflexivity].
    rewrite IH; [reflexivity|].
    cbn [has_line_break] in Hs. now apply orb_false_iff in Hs.
Qed.

Lemma blank_line_needs_break (s : string) :
  forall prev, has_line_break s = false -> has_match gm blank_line prev s = false.
Proof.
  assert (forall prev u, has_line_break u = false ->
            match_here gm blank_line prev u = None) as Hhere.
  { intros prev u Hu. unfold match_here, blank_line. cbn [cat rmatch].
    fold is_break.
    destruct prev as [c|];
      [destruct (multiline gm && isLineTerminator c); [|reflexivity]|];
      now apply star_then_break. }
  induction s as [|c s IH]; intros prev Hs; cbn [has_match];
    rewrite (Hhere _ _ Hs); [reflexivity|].
  apply IH. cbn [has_line_break] in Hs. now apply orb_false_iff in Hs.
Qed.

(** *** The sanitizer on its own output *)

Lemma sanitizeHTML_tail (html : string) :
  exists z, sanitizeHTML html = trim (squeeze false z).
Proof. unfold sanitizeHTML. rewrite replace_spaces. eauto. Qed.

Lemma sanitizeHTML_squeezed (html : string) : squeezed (sanitizeHTML html) = true.
Proof.
  destruct (sanitizeHTML_tail html) as [z ->].
  apply trim_squeezed, squeeze_squeezed.
Qed.

Lemma sanitizeHTML_trimmed (html : string) : trim (sanitizeHTML html) = sanitizeHTML html.
Proof. destruct (sanitizeHTML_tail html) as [z ->]. apply trim_fixed. Qed.

End WhiteSpaceSteps.

(** C8 (the claim at a concrete input): a script element whose opening tag is
    interrupted by a comment survives the first pass, because scripts are
    removed before comments, and is removed by the second. *)
Lemma sanitizer_not_idempotent :
  Sanitizer.sanitizeHTML Sanitizer.masked_script = "<script>alert(1)</script>"
  /\ Sanitizer.sanitizeHTML (Sanitizer.sanitizeHTML Sanitizer.masked_script) = ""
  /\ Sanitizer.sanitizeHTML (Sanitizer.sanitizeHTML Sanitizer.masked_script)
     <> Sanitizer.sanitizeHTML Sanitizer.masked_script.
Proof. repeat split; try (vm_compute; reflexivity). vm_compute. discriminate. Qed.

(** C8 (amended): if the sanitized document contains no match of any of the
    nine removal patterns, sanitizing it again gives the same document. *)
Theorem sanitize_clean_output_is_fixed (html : string) :
  Sanitizer.clean (Sanitizer.sanitizeHTML html) = true ->
  Sanitizer.sanitizeHTML (Sanitizer.sanitizeHTML html) = Sanitizer.sanitizeHTML html.
Proof.
  intros Hclean.
  pose proof (sanitizeHTML_squeezed html) as Hsq.
  pose proof (sanitizeHTML_trimmed html) as Htr.
  set (doc := Sanitizer.sanitizeHTML html) in *.
  unfold Sanitizer.clean, Sanitizer.removals in Hclean.
  cbn [forallb fst snd] in Hclean.
  repeat (apply andb_true_iff in Hclean as [?%negb_true_iff Hclean]).
  unfold Sanitizer.sanitizeHTML.
  repeat match goal with
         | H : Regex.has_match ?fl ?r None doc = false |- _ =>
             rewrite (replace_without_match fl r "" doc H); clear H
         end.
  rewrite (replace_without_match Regex.gm Sanitizer.blank_line)
    by (apply blank_line_needs_break, squeezed_no_line_break, Hsq).
  rewrite replace_spaces, (squeeze_fixed doc Hsq).
  exact Htr.
Qed.

Lemma sanitize_clean_output_is_fixed_witness :
  Sanitizer.sanitizeHTML (Sanitizer.sanitizeHTML "<main> <p>2x1  en   farmacias</p> </main>")
  = Sanitizer.sanitizeHTML "<main> <p>2x1  en   farmacias</p> </main>".
Proof.
  apply (sanitize_clean_output_is_fixed "<main> <p>2x1  en   farmacias</p> </main>").
  vm_compute. reflexivity.
Defined.


(* ===================================================================== *)
(** * Part III: further properties of the code                            *)
(* ===================================================================== *)

(** ** The chunker *)

Section ChunkShape.

Import JS Chunker Observe.

Lemma substring_app_take (a b : string) :
  String.substring 0 (String.length a) (a +:+ b) = a.
Proof.
  induction a as [|c a IH]; cbn.
  - destruct b; reflexivity.
  - change (String c (substring 0 (String.length a) (a +:+ b)) = String c a).
    now rewrite IH.
Qed.

Lemma substring_app_drop (a b : string) (m : nat) :
  String.substring (String.length a) m (a +:+ b) = String.substring 0 m b.
Proof. induction a as [|c a IH]; [reflexivity | exact IH]. Qed.

Lemma length_append (a b : string) :
  String.length (a +:+ b) = (String.length a + String.length b)%nat.
Proof.
  pose proof (append_len a b) as H. unfold len in H. lia.
Qed.

Lemma endsWith_append (p suffix : string) : endsWith (p +:+ suffix) suffix = true.
Proof.
  unfold endsWith. rewrite length_append.
  replace (String.length p + String.length suffix - String.length suffix)%nat
    with (String.length p) by lia.
  rewrite substring_app_drop, substring_full, String.eqb_refl.
  apply andb_true_iff. split; [apply Nat.leb_le; lia | reflexivity].
Qed.

Lemma prefix_split (p s : string) :
  String.prefix p s = true -> exists rest, s = p +:+ rest.
Proof.
  revert s; induction p as [|c p IH]; intros s H.
  - exists s. reflexivity.
  - destruct s as [|d s]; [discriminate|]. cbn in H.
    destruct (ascii_dec c d) as [->|]; [|discriminate].
    destruct (IH s H) as [rest ->]. exists rest. reflexivity.
Qed.

(** What [lastIndexOf] finds is an occurrence of the pattern. *)
Lemma lastIndexOf_scan_found (pat : string) (pos : Z) (s : string) :
  forall i acc,
    lastIndexOf_scan pat pos i s acc = acc
    \/ exists pre rest,
         s = pre +:+ pat +:+ rest
         /\ len pre = lastIndexOf_scan pat pos i s acc - i.
Proof.
  induction s as [|c s IH]; intros i acc; cbn [lastIndexOf_scan].
  - destruct ((i <=? Z.max pos 0) && String.prefix pat "") eqn:E; [|now left].
    apply andb_true_iff in E as [_ E]. destruct (prefix_split _ _ E) as [rest Hr].
    right. exists "", rest. split; [exact Hr | unfold len; cbn; lia].
  - destruct (IH (i + 1) (if (i <=? Z.max pos 0) && String.prefix pat (String c s)
                          then i else acc)) as [E|(pre & rest & Hs & Hl)].
    + rewrite E.
      destruct ((i <=? Z.max pos 0) && String.prefix pat (String c s)) eqn:E'; [|now left].
      apply andb_true_iff in E' as [_ E']. destruct (prefix_split _ _ E') as [rest Hr].
      right. exists "", rest. split; [exact Hr | unfold len; cbn; lia].
    + right. exists (String c pre), rest. split.
      * rewrite Hs. reflexivity.
      * unfold len in *. cbn [String.length]. lia.
Qed.

Lemma lastIndexOf_found (s pat : string) (pos : Z) :
  lastIndexOf s pat pos <> -1 ->
  exists pre rest, s = pre +:+ pat +:+ rest /\ len pre = lastIndexOf s pat pos.
Proof.
  intros H. unfold lastIndexOf in *.
  destruct (lastIndexOf_scan_found pat pos s 0 (-1)) as [E|(pre & rest & Hs & Hl)];
    [contradiction|].
  exists pre, rest. split; [assumption | lia].
Qed.

Lemma lastIndexOf_occurs (s pat : string) (pos : Z) :
  lastIndexOf s pat pos <> -1 -> occursAt pat s (lastIndexOf s pat pos).
Proof. intros H. exact (lastIndexOf_found s pat pos H). Qed.

Lemma prefix_append (p rest : string) : String.prefix p (p +:+ rest) = true.
Proof.
  induction p as [|c p IH]; [now destruct rest|].
  change (String c p +:+ rest) with (String c (p +:+ rest)). cbn.
  destruct (ascii_dec c c); [exact IH | congruence].
Qed.

Lemma lastIndexOf_scan_step (pat : string) (pos : Z) (s : string) (i acc : Z) :
  lastIndexOf_scan pat pos i s acc = acc \/ i <= lastIndexOf_scan pat pos i s acc.
Proof.
  destruct (lastIndexOf_scan_found pat pos s i acc) as [E|(pre & rest & _ & Hl)];
    [now left|].
  right. pose proof (len_nonneg pre). lia.
Qed.

(** No occurrence at or before the position lies after what [lastIndexOf]
    answers. *)
Lemma lastIndexOf_scan_greatest (pat : string) (pos : Z) (pre : string) :
  forall s rest i acc,
    s = pre +:+ pat +:+ rest ->
    i + len pre <= Z.max pos 0 ->
    i + len pre <= lastIndexOf_scan pat pos i s acc.
Proof.
  induction pre as [|c pre IH]; intros s rest i acc Hs Hi.
  - change ("" +:+ pat +:+ rest) with (pat +:+ rest) in Hs.
    change (len "") with 0 in *. rewrite Z.add_0_r in *.
    assert ((i <=? Z.max pos 0) && String.prefix pat s = true) as Hcond.
    { apply andb_true_iff. split; [apply Z.leb_le; lia|]. subst s. apply prefix_append. }
    destruct s as [|d s]; cbn [lastIndexOf_scan]; rewrite Hcond; [lia|].
    destruct (lastIndexOf_scan_step pat pos s (i + 1) i) as [-> | H]; lia.
  - change (String c pre +:+ pat +:+ rest) with (String c (pre +:+ pat +:+ rest)) in Hs.
    subst s. cbn [lastIndexOf_scan].
    assert (len (String c pre) = len pre + 1) as Hl by (unfold len; cbn [String.length]; lia).
    rewrite Hl in *.
    specialize (IH (pre +:+ pat +:+ rest) rest (i + 1)
                   (if (i <=? Z.max pos 0) && String.prefix pat (String c (pre +:+ pat +:+ rest))
                    then i else acc) eq_refl).
    lia.
Qed.

Lemma lastIndexOf_greatest (s pat : string) (pos j : Z) :
  occursAt pat s j -> 0 <= j <= pos -> j <= lastIndexOf s pat pos.
Proof.
  intros (pre & rest & Hs & Hl) Hj. unfold lastIndexOf.
  pose proof (lastIndexOf_scan_greatest pat pos pre s rest 0 (-1) Hs). lia.
Qed.

Lemma slice_prefix_of_append (a b : string) : slice (a +:+ b) 0 (len a) = a.
Proof.
  unfold slice.
  pose proof (len_nonneg a). pose proof (len_nonneg b).
  rewrite append_len.
  replace (slice_index (len a + len b) 0) with 0 by (unfold slice_index; cbn; lia).
  replace (slice_index (len a + len b) (len a)) with (len a)
    by (unfold slice_index; destruct (len a <? 0) eqn:E; lia).
  replace (Z.to_nat (Z.max (len a - 0) 0)) with (String.length a) by (unfold len; lia).
  apply substring_app_take.
Qed.

Section Limit.

Variable L : Z.
Hypothesis HL : 0 <= L.

(** The loop cuts well what it is given. *)
Lemma splitLoop_wellCut (fuel : nat) :
  forall remainingHtml chunks out,
    splitLoop L fuel remainingHtml chunks = Some out ->
    exists new,
      out = chunks ++ new
      /\ join "" new = remainingHtml
      /\ (remainingHtml = "" -> new = [])
      /\ wellCut L new.
Proof.
  induction fuel as [|fuel IH]; intros s chunks out H; [discriminate|].
  cbn [splitLoop] in H.
  destruct (Z.ltb_spec 0 (len s)) as [E0|E0].
  2:{ injection H as <-. exists []. rewrite app_nil_r.
      assert (s = "") as -> by (destruct s; [reflexivity | unfold len in E0; cbn in E0; lia]).
      repeat split; auto. }
  assert (s <> "") as Hs by (intros ->; unfold len in E0; cbn in E0; lia).
  destruct (Z.leb_spec (len s) L) as [E1|E1].
  { injection H as <-. exists [s]. repeat split; auto. congruence. }
  pose proof (cut_offset_range L HL s) as Hr. cbv zeta in Hr.
  set (k := (if lastIndexOf s "</div>" L =? -1 then L else lastIndexOf s "</div>" L) + 6) in *.
  destruct (IH _ _ _ H) as (new & -> & Hjoin & Hnil & Hcut).
  exists (slice s 0 k :: new).
  split; [now rewrite <- app_assoc|].
  split; [rewrite join_empty_cons, Hjoin; apply slice_prefix_suffix|].
  split; [congruence|].
  destruct new as [|d new]; [exact I|].
  assert (k < len s) as Hk.
  { destruct (Z.lt_ge_cases k (len s)) as [Hlt|Hge]; [exact Hlt|].
    assert (len (slice_from s k) = 0) as H0 by (rewrite slice_suffix_len by lia; lia).
    assert (slice_from s k = "") as Hempty
      by (destruct (slice_from s k); [reflexivity | unfold len in H0; cbn in H0; lia]).
    discriminate (Hnil Hempty). }
  assert (join "" (slice s 0 k :: d :: new) = s) as Hrem
    by (rewrite join_empty_cons, Hjoin; apply slice_prefix_suffix).
  change (wellCut L (slice s 0 k :: d :: new))
    with (((exists j, lastTagUpTo L (join "" (slice s 0 k :: d :: new)) j
                      /\ len (slice s 0 k) = j + 6
                      /\ endsWith (slice s 0 k) "</div>" = true)
           \/ ((forall j, 0 <= j <= L ->
                  ~ occursAt "</div>" (join "" (slice s 0 k :: d :: new)) j)
               /\ len (slice s 0 k) = L + 6))
          /\ wellCut L (d :: new)).
  rewrite Hrem. split; [|exact Hcut].
  assert (len (slice s 0 k) = k) as Hlen by (rewrite slice_prefix_len by lia; lia).
  subst k.
  destruct (Z.eqb_spec (lastIndexOf s "</div>" L) (-1)) as [E|E].
  - right. split; [|exact Hlen].
    intros j Hj Hocc. pose proof (lastIndexOf_greatest s "</div>" L j Hocc Hj). lia.
  - left. exists (lastIndexOf s "</div>" L).
    destruct (lastIndexOf_range s "</div>" L) as [?|Hrange]; [contradiction|].
    split; [|split; [exact Hlen|]].
    + split; [lia|]. split; [now apply lastIndexOf_occurs|].
      intros j Hj Hocc. now apply lastIndexOf_greatest.
    + destruct (lastIndexOf_found s "</div>" L E) as (pre & rest & Hpre & Hl).
      rewrite <- Hl. rewrite Hpre at 1.
      replace (len pre + 6) with (len (pre +:+ "</div>"))
        by (rewrite append_len; reflexivity).
      rewrite <- append_assoc, slice_prefix_of_append.
      apply endsWith_append.
Qed.

Lemma splitLoop_nonempty (fuel : nat) :
  forall remainingHtml chunks out,
    Forall (fun c => 0 < len c) chunks ->
    splitLoop L fuel remainingHtml chunks = Some out ->
    Forall (fun c => 0 < len c) out.
Proof.
  induction fuel as [|fuel IH]; intros s chunks out Hc H; [discriminate|].
  cbn [splitLoop] in H.
  destruct (Z.ltb_spec 0 (len s)) as [E0|E0]; [|congruence].
  destruct (Z.leb_spec (len s) L) as [E1|E1].
  - inversion H; subst. apply Forall_app; split; [assumption|].
    constructor; [assumption | constructor].
  - eapply IH; [|exact H]. apply Forall_app; split; [assumption|].
    constructor; [|constructor].
    pose proof (cut_offset_range L HL s) as Hr. cbv zeta in Hr.
    rewrite slice_prefix_len by lia. lia.
Qed.

End Limit.

End ChunkShape.

(** X1: the chunker returns for every document, and every chunk it returns
    is non-empty and has at most MAX_CHUNK_LENGTH + 6 characters. *)
Theorem chunks_nonempty_and_bounded (html : string) :
  exists chunks,
    Chunker.splitHTMLIntoChunks html = Some chunks
    /\ Forall (fun c => 0 < JS.len c <= MAX_CHUNK_LENGTH + 6) chunks.
Proof.
  destruct (splitHTMLIntoChunks_total html) as [chunks H].
  exists chunks. split; [assumption|].
  pose proof (splitHTMLIntoChunks_bound html chunks H) as Hb.
  assert (Forall (fun c => 0 < JS.len c) chunks) as Hn.
  { eapply (splitLoop_nonempty MAX_CHUNK_LENGTH); [unfold MAX_CHUNK_LENGTH; lia | | exact H].
    constructor. }
  rewrite Forall_forall in *. intros c Hc. split; [now apply Hn | now apply Hb].
Qed.

(** X2: the empty document gives no chunk at all and is the only one that
    does; a non-empty document within the limit is returned as one chunk,
    itself. *)
Theorem small_documents_are_not_cut (html : string) :
  (Chunker.splitHTMLIntoChunks html = Some [] <-> html = "")
  /\ (html <> "" -> JS.len html <= MAX_CHUNK_LENGTH ->
      Chunker.splitHTMLIntoChunks html = Some [html]).
Proof.
  split; [split|].
  - intros H. apply splitLoop_join in H. exact (eq_sym H).
  - intros ->. reflexivity.
  - intros Hne Hlen. unfold Chunker.splitHTMLIntoChunks, Chunker.splitWith.
    cbn [Chunker.splitLoop].
    destruct (Z.ltb_spec 0 (JS.len html)) as [E0|E0].
    + destruct (Z.leb_spec (JS.len html) MAX_CHUNK_LENGTH); [reflexivity | lia].
    + destruct html; [contradiction | unfold JS.len in E0; cbn in E0; lia].
Qed.

Lemma small_documents_are_not_cut_witness :
  Chunker.splitHTMLIntoChunks "<div>2x1 en farmacias</div>"
  = Some ["<div>2x1 en farmacias</div>"].
Proof.
  apply (proj2 (small_documents_are_not_cut "<div>2x1 en farmacias</div>")).
  - discriminate.
  - vm_compute. discriminate.
Defined.

(** X3: every chunk but the last is cut according to the text that
    remained when it was cut: if a closing tag [</div>] starts at or before
    offset MAX_CHUNK_LENGTH of that text, the chunk ends right after the last
    such tag (so it ends with [</div>]); if none does, the chunk is a hard cut
    of exactly MAX_CHUNK_LENGTH + 6 characters. *)
Theorem inner_chunks_end_with_tag_or_hard_cut (html : string) :
  exists chunks,
    Chunker.splitHTMLIntoChunks html = Some chunks
    /\ Observe.wellCut MAX_CHUNK_LENGTH chunks.
Proof.
  destruct (splitHTMLIntoChunks_total html) as [chunks H].
  exists chunks. split; [assumption|].
  destruct (splitLoop_wellCut MAX_CHUNK_LENGTH ltac:(unfold MAX_CHUNK_LENGTH; lia) _ _ _ _ H)
    as (new & -> & _ & _ & Hcut).
  exact Hcut.
Qed.

(** With a limit of 10, the first chunk ends after the tag that starts at
    offset 8, the last one at or before the limit. *)
Example cut_after_last_tag_before_limit :
  Chunker.splitWith 10 "<p>a</p></div><p>bcdefgh</p>"
  = Some ["<p>a</p></div>"; "<p>bcdefgh</p>"]
  /\ JS.lastIndexOf "<p>a</p></div><p>bcdefgh</p>" "</div>" 10 = 8.
Proof. split; reflexivity. Qed.

(** ** The sanitizer *)

Section SanitizerShape.

Import JS Regex Sanitizer Observe.

(** *** Lengths *)

Lemma replace_scan_delete_length (fl : flags) (r : regex) (s : string) :
  forall skip prev,
    (String.length (replace_scan fl r "" skip prev s) <= String.length s)%nat.
Proof.
  induction s as [|c s IH]; intros skip prev.
  - destruct skip; cbn [replace_scan];
      [destruct (match_here fl r prev "") as [rest|];
       [destruct (String.length "" - String.length rest)%nat|]|];
      exact (Nat.le_refl 0).
  - destruct skip as [|n]; cbn [replace_scan].
    + destruct (match_here fl r prev (String c s)) as [rest|].
      * change ("" +:+ ?x) with x.
        destruct (String.length (String c s) - String.length rest)%nat.
        -- cbn [String.length]. specialize (IH 0%nat (Some c)). lia.
        -- cbn [String.length]. specialize (IH n (Some c)). lia.
      * cbn [String.length]. specialize (IH 0%nat (Some c)). lia.
    + cbn [String.length]. specialize (IH n (Some c)). lia.
Qed.

Lemma replace_delete_length (fl : flags) (r : regex) (s : string) :
  (String.length (replace fl r "" s) <= String.length s)%nat.
Proof. apply replace_scan_delete_length. Qed.

Lemma squeeze_length (s : string) :
  forall b, (String.length (squeeze b s) <= String.length s)%nat.
Proof.
  induction s as [|c s IH]; intros b; [reflexivity|]. cbn [squeeze].
  destruct (isWhiteSpace c); [destruct b|]; cbn [String.length];
    [specialize (IH true) | specialize (IH true) | specialize (IH false)]; lia.
Qed.

Lemma trimStart_le (s : string) :
  (String.length (trimStart s) <= String.length s)%nat.
Proof. pose proof (trimStart_length s). lia. Qed.

Lemma trimEnd_le (s : string) :
  (String.length (trimEnd s) <= String.length s)%nat.
Proof.
  induction s as [|c s IH]; [reflexivity|]. cbn [trimEnd].
  destruct (trimEnd s) as [|d t]; [destruct (isWhiteSpace c)|];
    cbn [String.length] in *; lia.
Qed.

Lemma trim_le (s : string) : (String.length (trim s) <= String.length s)%nat.
Proof.
  unfold trim. pose proof (trimEnd_le (trimStart s)). pose proof (trimStart_le s). lia.
Qed.

(** *** The blank-line step *)

Lemma break_is_space (c : ascii) : is_break c = true -> isWhiteSpace c = true.
Proof. rewrite is_break_spec. apply line_terminator_is_blank. Qed.

(** A match of the blank-line pattern (after its [^]) is a non-empty part
    of the white space the text starts with. *)
Lemma blank_run_shape (fuel : nat) :
  forall prev s rest,
    star_loop true (one_char is_space) (one_char is_break accept) fuel prev s = Some rest ->
    exists k, (String.length rest + S k = String.length s)%nat
              /\ (S k <= leading_blanks s)%nat.
Proof.
  assert (forall prev s rest, one_char is_break accept prev s = Some rest ->
            exists k, (String.length rest + S k = String.length s)%nat
                      /\ (S k <= leading_blanks s)%nat) as Hexit.
  { intros prev [|c s] rest; cbn [one_char]; [discriminate|].
    destruct (is_break c) eqn:E; [|discriminate]. intros [= <-].
    exists 0%nat. cbn [String.length leading_blanks].
    rewrite (break_is_space c E). lia. }
  induction fuel as [|fuel IH]; intros prev s rest; cbn [star_loop]; [apply Hexit|].
  destruct s as [|c s]; [apply Hexit|].
  unfold one_char at 1. rewrite is_space_spec.
  destruct (isWhiteSpace c) eqn:Ec; [|apply Hexit].
  destruct (String.length s <? String.length (String c s))%nat; [|apply Hexit].
  destruct (star_loop true (one_char is_space) (one_char is_break accept) fuel (Some c) s)
    as [rest'|] eqn:E; [|apply Hexit].
  intros [= <-]. destruct (IH _ _ _ E) as (k & Hk1 & Hk2).
  exists (S k). cbn [String.length leading_blanks]. rewrite Ec. lia.
Qed.

Lemma blank_line_match_shape (prev : option ascii) (s rest : string) :
  match_here gm blank_line prev s = Some rest ->
  exists k, (String.length s - String.length rest = S k)%nat
            /\ (S k <= leading_blanks s)%nat.
Proof.
  unfold match_here, blank_line. cbn [cat rmatch]. fold is_break.
  change (one_char (cls_matches gm false [CSpace])) with (one_char is_space).
  intros H.
  assert (star_loop true (one_char is_space) (one_char is_break accept)
            (String.length s) prev s = Some rest) as H'.
  { destruct prev as [c|]; [|exact H].
    destruct (multiline gm && isLineTerminator c); [exact H | discriminate]. }
  destruct (blank_run_shape _ _ _ _ H') as (k & Hk1 & Hk2).
  exists k. split; [lia | assumption].
Qed.

Lemma blank_line_needs_line_start (c : ascii) (s : string) :
  isLineTerminator c = false -> match_here gm blank_line (Some c) s = None.
Proof.
  intros H. unfold match_here, blank_line. cbn [cat rmatch]. rewrite H.
  now rewrite andb_false_r.
Qed.

(** Deleting blank lines does not change what squeezing gives. *)
Lemma blank_line_absorbed (s : string) :
  (forall n prev, (n <= leading_blanks s)%nat ->
     squeeze true (replace_scan gm blank_line "" n prev s) = squeeze true s)
  /\ (forall c b, isLineTerminator c = false ->
        squeeze b (replace_scan gm blank_line "" 0 (Some c) s) = squeeze b s).
Proof.
  induction s as [|d s [IH1 IH2]].
  - split.
    + intros n prev _. destruct n; cbn [replace_scan]; [|reflexivity].
      destruct (match_here gm blank_line prev "") as [rest|] eqn:E; [|reflexivity].
      apply blank_line_match_shape in E as (k & Hk & _). cbn in Hk. lia.
    + intros c b Hc. cbn [replace_scan].
      now rewrite (blank_line_needs_line_start c "" Hc).
  - assert (forall prev b,
              match_here gm blank_line prev (String d s) = None ->
              squeeze b (replace_scan gm blank_line "" 0 prev (String d s))
              = squeeze b (String d s)) as Hnone.
    { intros prev b E. cbn [replace_scan]. rewrite E. cbn [squeeze].
      destruct (isWhiteSpace d) eqn:Ed.
      - rewrite (IH1 0%nat (Some d)) by lia. reflexivity.
      - rewrite IH2; [reflexivity|].
        destruct (isLineTerminator d) eqn:El; [|reflexivity].
        apply line_terminator_is_blank in El. congruence. }
    split.
    + intros n prev Hn. destruct n as [|n].
      * destruct (match_here gm blank_line prev (String d s)) as [rest|] eqn:E;
          [|now apply Hnone].
        cbn [replace_scan]. rewrite E. change ("" +:+ ?x) with x.
        destruct (blank_line_match_shape _ _ _ E) as (k & -> & Hk).
        cbn [leading_blanks] in Hk. cbn [squeeze].
        destruct (isWhiteSpace d); [|lia].
        apply IH1. lia.
      * cbn [leading_blanks] in Hn. cbn [replace_scan squeeze].
        destruct (isWhiteSpace d); [|lia]. apply IH1. lia.
    + intros c b Hc. apply Hnone. now apply blank_line_needs_line_start.
Qed.

Lemma trimStart_squeeze (s : string) :
  trimStart (squeeze false s) = squeeze true s.
Proof.
  destruct s as [|c s]; [reflexivity|]. cbn [squeeze].
  destruct (isWhiteSpace c) eqn:E.
  - cbn [trimStart]. change (isWhiteSpace " ") with true. cbn iota.
    apply trimStart_fixed, squeeze_run_starts.
  - cbn [trimStart]. now rewrite E.
Qed.

Lemma blank_line_step_redundant (s : string) :
  trim (squeeze false (replace gm blank_line "" s)) = trim (squeeze false s).
Proof.
  unfold trim. rewrite !trimStart_squeeze. unfold replace.
  now rewrite (proj1 (blank_line_absorbed s) 0%nat None) by lia.
Qed.

(** *** Patterns that need a character the text does not have *)

Lemma occurs_cons (c d : ascii) (s : string) :
  occurs c (String d s) = false -> Ascii.eqb c d = false /\ occurs c s = false.
Proof. cbn [occurs]. apply orb_false_iff. Qed.

Lemma one_char_blocked (c : ascii) (p : ascii -> bool) (k : cont) :
  blocked c k -> blocked c (one_char p k).
Proof.
  intros Hk prev [|d s] Hs; cbn [one_char]; [reflexivity|].
  apply occurs_cons in Hs as [_ Hs]. rewrite (Hk _ _ Hs). now destruct (p d).
Qed.

Lemma star_loop_blocked (c : ascii) (greedy : bool) (body : matcher) (k : cont) :
  (forall k', blocked c k' -> blocked c (body k')) ->
  blocked c k ->
  forall fuel, blocked c (star_loop greedy body k fuel).
Proof.
  intros Hbody Hk fuel. induction fuel as [|fuel IH]; intros prev s Hs;
    cbn [star_loop]; [now apply Hk|].
  cbv beta zeta. rewrite (Hk prev s Hs).
  assert (blocked c (fun prev' s' =>
            if (String.length s' <? String.length s)%nat
            then star_loop greedy body k fuel prev' s' else None)) as Hnext.
  { intros prev' s' Hs'.
    destruct (String.length s' <? String.length s)%nat; [now apply IH | reflexivity]. }
  destruct greedy; now rewrite (Hbody _ Hnext prev s Hs).
Qed.

(** Whatever the pattern, it cannot succeed in front of a blocked
    continuation. *)
Lemma rmatch_blocked (fl : flags) (c : ascii) (r : regex) :
  forall k, blocked c k -> blocked c (rmatch fl r k).
Proof.
  induction r as [| | | |r1 IH1 r2 IH2|r1 IH1 r2 IH2|greedy r IH|r IH| |];
    intros k Hk; cbn [rmatch]; try (now apply one_char_blocked).
  - exact Hk.
  - apply IH1, IH2, Hk.
  - intros prev s Hs. rewrite (IH1 k Hk prev s Hs). now apply IH2.
  - intros prev s Hs. now apply (star_loop_blocked c greedy (rmatch fl r) k IH Hk).
  - intros prev s Hs. rewrite (Hk prev s Hs). now destruct (rmatch fl r accept prev s).
  - intros prev s Hs. rewrite (Hk prev s Hs). now destruct (xorb _ _).
  - intros prev s Hs. rewrite (Hk prev s Hs).
    destruct prev as [d|]; [now destruct (multiline fl && isLineTerminator d) | reflexivity].
Qed.

(** A literal that is not a letter matches only itself, with or without
    the [i] flag. *)
Lemma lit_matches_lt (fl : flags) (d : ascii) : lit_matches fl "<" d = Ascii.eqb "<" d.
Proof.
  destruct fl as [[] m]; destruct d as [[] [] [] [] [] [] [] []]; reflexivity.
Qed.

Lemma lit_matches_quote (fl : flags) (d : ascii) : lit_matches fl quote d = Ascii.eqb quote d.
Proof.
  destruct fl as [[] m]; destruct d as [[] [] [] [] [] [] [] []]; reflexivity.
Qed.

Lemma needs_char_blocked (c : ascii) (p : ascii -> bool) (k : cont) :
  (forall d, p d = Ascii.eqb c d) -> blocked c (one_char p k).
Proof.
  intros Hp prev [|d s] Hs; cbn [one_char]; [reflexivity|].
  apply occurs_cons in Hs as [Hd _]. now rewrite Hp, Hd.
Qed.

Lemma has_match_blocked (fl : flags) (c : ascii) (r : regex) :
  blocked c (rmatch fl r accept) ->
  forall s prev, occurs c s = false -> has_match fl r prev s = false.
Proof.
  intros Hr. induction s as [|d s IH]; intros prev Hs; cbn [has_match];
    unfold match_here; rewrite (Hr prev _ Hs); [reflexivity|].
  apply occurs_cons in Hs as [_ Hs]. now apply IH.
Qed.

Lemma block_blocked (tag : string) : blocked "<" (rmatch gi (block tag) accept).
Proof.
  unfold block. cbn [cat rmatch].
  change ("<" +:+ tag) with (String "<" tag).
  destruct tag as [|t tag]; cbn [str rmatch];
    apply needs_char_blocked, lit_matches_lt.
Qed.

Lemma comment_blocked : blocked "<" (rmatch g comment accept).
Proof.
  unfold comment. cbn [cat str rmatch]. apply needs_char_blocked, lit_matches_lt.
Qed.

Lemma attribute_blocked : blocked quote (rmatch gi attribute accept).
Proof.
  unfold attribute. cbn [cat rmatch].
  apply one_char_blocked, rmatch_blocked, one_char_blocked.
  apply needs_char_blocked, lit_matches_quote.
Qed.

End SanitizerShape.

(** X4: the sanitized document is never longer than the document. *)
Theorem sanitizeHTML_never_longer (html : string) :
  (String.length (Sanitizer.sanitizeHTML html) <= String.length html)%nat.
Proof.
  unfold Sanitizer.sanitizeHTML.
  eapply Nat.le_trans; [apply trim_le|].
  rewrite replace_spaces.
  eapply Nat.le_trans; [apply squeeze_length|].
  repeat (eapply Nat.le_trans; [apply replace_delete_length|]).
  apply Nat.le_refl.
Qed.

(** X5: in a sanitized document every white-space character is a blank
    (code 32) that stands alone between two other characters: no line
    break or tab is left, no two blanks follow each other, and the document
    neither starts nor ends with white space. *)
Theorem sanitizeHTML_normalises_white_space (html : string) :
  Sanitizer.squeezed (Sanitizer.sanitizeHTML html) = true
  /\ Sanitizer.has_line_break (Sanitizer.sanitizeHTML html) = false
  /\ Sanitizer.starts_blank (Sanitizer.sanitizeHTML html) = false
  /\ JS.trimEnd (Sanitizer.sanitizeHTML html) = Sanitizer.sanitizeHTML html.
Proof.
  pose proof (sanitizeHTML_squeezed html) as Hsq.
  repeat split.
  - exact Hsq.
  - now apply squeezed_no_line_break.
  - destruct (sanitizeHTML_tail html) as [z ->]. unfold JS.trim.
    destruct (trimEnd_first (JS.trimStart (Sanitizer.squeeze false z))) as [-> | ->];
      [reflexivity | apply trimStart_starts].
  - destruct (sanitizeHTML_tail html) as [z ->]. unfold JS.trim.
    apply trimEnd_idempotent.
Qed.

(** X6: the step that deletes blank lines has no effect on the result:
    collapsing the white space and trimming gives the same text with or
    without it. *)
Theorem blank_line_removal_is_absorbed (text : string) :
  JS.trim (Regex.replace Regex.g Sanitizer.spaces " "
             (Regex.replace Regex.gm Sanitizer.blank_line "" text))
  = JS.trim (Regex.replace Regex.g Sanitizer.spaces " " text).
Proof. rewrite !replace_spaces. apply blank_line_step_redundant. Qed.

(** X7: a text without [<] and without double quote is only normalised:
    each run of white space becomes one blank and the ends are trimmed;
    no other character is removed or changed. *)
Theorem plain_text_is_only_normalised (text : string) :
  Observe.occurs "<" text = false ->
  Observe.occurs Sanitizer.quote text = false ->
  Sanitizer.sanitizeHTML text = JS.trim (Sanitizer.squeeze false text).
Proof.
  intros Hlt Hq. unfold Sanitizer.sanitizeHTML.
  repeat match goal with
         | |- context [Regex.replace ?fl ?r "" text] =>
             rewrite (replace_without_match fl r "" text)
               by first
                    [ apply (has_match_blocked _ "<");
                      [first [apply block_blocked | apply comment_blocked] | assumption]
                    | apply (has_match_blocked _ Sanitizer.quote);
                      [apply attribute_blocked | assumption] ]
         end.
  rewrite replace_spaces. apply blank_line_step_redundant.
Qed.

Lemma plain_text_is_only_normalised_witness :
  Sanitizer.sanitizeHTML "  20% de descuento
   los martes  "
  = "20% de descuento los martes".
Proof.
  rewrite (plain_text_is_only_normalised "  20% de descuento
   los martes  ") by reflexivity.
  vm_compute. reflexivity.
Defined.

(** ** Selector inference *)

Section InferenceShape.

Import Inference Observe.

Variables (w : World) (s : Session).

(** The two ways [generateSelector] ends. *)
Lemma generateSelector_cases (answer : result (option string)) (html : string) :
  (exists m t, generateSelector w answer html = (Throw (SelectorGenerationError m), t)
               /\ (t = [] \/ t = [InferenceCall html])
               /\ (apiKey w = true -> t = [InferenceCall html]))
  \/ (exists content selectors,
        generateSelector w answer html = (Ok content, [InferenceCall html])
        /\ apiKey w = true
        /\ answer = Ok (Some content)
        /\ content <> ""
        /\ jsonParse w content = Some selectors).
Proof.
  unfold generateSelector.
  destruct (apiKey w) eqn:Hk; cbn.
  - destruct answer as [[[|c content]|]|e]; cbn;
      try (left; eexists _, _; split; [reflexivity | split; [now right | reflexivity]]).
    destruct (jsonParse w (String c content)) as [selectors|] eqn:Hp; cbn.
    + right. exists (String c content), selectors. repeat split; auto; discriminate.
    + left. eexists _, _. split; [reflexivity | split; [now right | reflexivity]].
  - left. eexists _, _. split; [reflexivity | split; [now left | discriminate]].
Qed.

(** One round of the loop: a suspension if the counter asks for one, the
    events of the call, and the rest of the loop with the counter and the
    results either as they were or with one more. *)
Lemma processLoop_step (i : nat) (chunk : string) (rest : list string)
    (requestCount : Z) (results : list (gmap string string)) :
  let suspended := MAX_REQUESTS_PER_MINUTE <=? requestCount in
  let count := if suspended then 0 else requestCount in
  exists count' results',
    ((count' = count /\ results' = results)
     \/ (count' = count + 1 /\ exists selectors, results' = results ++ [selectors]))
    /\ processLoop w s i (chunk :: rest) requestCount results
       = (fst (processLoop w s (S i) rest count' results'),
          (if suspended then [Sleep RATE_LIMIT_DELAY] else [])
            ++ snd (generateSelector w (completion s i chunk) chunk)
            ++ snd (processLoop w s (S i) rest count' results')).
Proof.
  cbv zeta. cbn [processLoop].
  destruct (generateSelector_cases (completion s i chunk) chunk)
    as [(m & t & -> & _)|(content & selectors & -> & _ & _ & _ & Hp)].
  - exists (if MAX_REQUESTS_PER_MINUTE <=? requestCount then 0 else requestCount), results.
    split; [now left|].
    destruct (MAX_REQUESTS_PER_MINUTE <=? requestCount); cbn;
      destruct (processLoop w s (S i) rest _ results) as [r t'];
      cbn; now rewrite ?app_nil_r.
  - exists ((if MAX_REQUESTS_PER_MINUTE <=? requestCount then 0 else requestCount) + 1),
           (results ++ [selectors]).
    split; [right; eauto|].
    unfold JSON_parse.
    destruct (MAX_REQUESTS_PER_MINUTE <=? requestCount); cbn; rewrite Hp; cbn;
      destruct (processLoop w s (S i) rest _ (results ++ [selectors])) as [r t'];
      cbn; now rewrite ?app_nil_r.
Qed.

Lemma processLoop_returns (chunks : list string) :
  forall i requestCount results,
    exists results' t,
      processLoop w s i chunks requestCount results = (Ok results', t)
      /\ (length results <= length results' <= length results + length chunks)%nat.
Proof.
  induction chunks as [|chunk rest IH]; intros i requestCount results.
  - exists results, []. split; [reflexivity | cbn; lia].
  - destruct (processLoop_step i chunk rest requestCount results)
      as (count' & results1 & Hcase & ->).
    destruct (IH (S i) count' results1) as (results' & t & -> & Hlen).
    eexists _, _. split; [reflexivity|]. cbn [length].
    destruct Hcase as [[_ ->]|[_ [selectors ->]]]; [lia|].
    rewrite length_app in Hlen. cbn in Hlen. lia.
Qed.

Lemma callsOf_app (t1 t2 : list event) : callsOf (t1 ++ t2) = callsOf t1 ++ callsOf t2.
Proof.
  induction t1 as [|[] t1 IH]; cbn; auto. now rewrite IH.
Qed.

Lemma sleepsOf_app (t1 t2 : list event) : sleepsOf (t1 ++ t2) = sleepsOf t1 ++ sleepsOf t2.
Proof.
  induction t1 as [|[] t1 IH]; cbn; auto. now rewrite IH.
Qed.

Lemma generateSelector_trace (answer : result (option string)) (html : string) :
  (snd (generateSelector w answer html) = []
   \/ snd (generateSelector w answer html) = [InferenceCall html])
  /\ (apiKey w = true -> snd (generateSelector w answer html) = [InferenceCall html]).
Proof.
  destruct (generateSelector_cases answer html)
    as [(m & t & -> & Ht & Hk)|(content & selectors & -> & _)]; cbn; auto.
Qed.

Lemma processLoop_calls (chunks : list string) :
  apiKey w = true ->
  forall i requestCount results,
    callsOf (snd (processLoop w s i chunks requestCount results)) = chunks.
Proof.
  intros Hk. induction chunks as [|chunk rest IH]; intros i requestCount results.
  - reflexivity.
  - destruct (processLoop_step i chunk rest requestCount results)
      as (count' & results1 & _ & ->).
    cbn [snd]. rewrite !callsOf_app, IH.
    rewrite (proj2 (generateSelector_trace _ _) Hk).
    now destruct (MAX_REQUESTS_PER_MINUTE <=? requestCount).
Qed.

Lemma processLoop_silent (chunks : list string) :
  apiKey w = false ->
  forall i results,
    processLoop w s i chunks 0 results = (Ok results, []).
Proof.
  intros Hk. induction chunks as [|chunk rest IH]; intros i results; [reflexivity|].
  rewrite (processLoop_failed_chunk w s i chunk rest 0 results _ []
             ltac:(unfold MAX_REQUESTS_PER_MINUTE; lia)
             (generateSelector_without_key w _ _ Hk)).
  now rewrite IH.
Qed.

Lemma processLoop_sleeps (chunks : list string) :
  forall i requestCount results,
    0 <= requestCount <= MAX_REQUESTS_PER_MINUTE ->
    let sleeps := sleepsOf (snd (processLoop w s i chunks requestCount results)) in
    Forall (fun ms => ms = RATE_LIMIT_DELAY) sleeps
    /\ (chunks = [] -> sleeps = [])
    /\ (chunks <> [] ->
        3 * Z.of_nat (length sleeps) <= requestCount + Z.of_nat (length chunks) - 1).
Proof.
  induction chunks as [|chunk rest IH]; intros i requestCount results Hc; cbv zeta.
  - cbn. repeat split; [constructor | congruence].
  - destruct (processLoop_step i chunk rest requestCount results)
      as (count' & results1 & Hcase & ->).
    cbn [snd]. rewrite !sleepsOf_app.
    assert (sleepsOf (snd (generateSelector w (completion s i chunk) chunk)) = []) as ->.
    { destruct (proj1 (generateSelector_trace (completion s i chunk) chunk)) as [-> | ->];
        reflexivity. }
    cbn [app].
    assert (0 <= count' <= MAX_REQUESTS_PER_MINUTE
            /\ count' <= (if MAX_REQUESTS_PER_MINUTE <=? requestCount then 0 else requestCount) + 1)
      as [Hc' Hle].
    { unfold MAX_REQUESTS_PER_MINUTE in *.
      destruct (Z.leb_spec 3 requestCount); destruct Hcase as [[-> _]|[-> _]]; lia. }
    destruct (IH (S i) count' results1 Hc') as (Hall & Hnil & Hbound). cbv zeta in *.
    split; [|split; [congruence|]].
    + destruct (MAX_REQUESTS_PER_MINUTE <=? requestCount); cbn; [constructor|]; auto.
    + intros _. cbn [length]. rewrite Nat2Z.inj_succ.
      unfold MAX_REQUESTS_PER_MINUTE in *.
      destruct rest as [|chunk' rest'].
      * rewrite (Hnil eq_refl), app_nil_r. revert Hle.
        destruct (Z.leb_spec 3 requestCount); cbn; lia.
      * specialize (Hbound ltac:(discriminate)). cbn [length] in Hbound. revert Hle.
        destruct (Z.leb_spec 3 requestCount); cbn [sleepsOf app length];
          rewrite ?Nat2Z.inj_succ in *; lia.
Qed.

End InferenceShape.

(** X8: [generateSelector] ends in one of two ways.  Either it throws, and
    then always a SelectorGenerationError, having sent at most the one
    request; or it returns the answer of the service, which is then a
    non-empty text that [JSON.parse] accepts, the credential is set and
    exactly one request was sent. *)
Theorem generateSelector_throws_only_selector_errors (w : World)
    (answer : result (option string)) (html : string) :
  (exists m t,
     Inference.generateSelector w answer html = (Throw (SelectorGenerationError m), t)
     /\ (t = [] \/ t = [InferenceCall html]))
  \/ (exists content selectors,
        Inference.generateSelector w answer html = (Ok content, [InferenceCall html])
        /\ apiKey w = true
        /\ answer = Ok (Some content)
        /\ content <> ""
        /\ jsonParse w content = Some selectors).
Proof.
  destruct (generateSelector_cases w answer html)
    as [(m & t & H & Ht & _)|H]; [left; eauto | right; exact H].
Qed.

(** X9: [processHTMLChunks] never throws, whatever the service does: it
    returns a list of selector maps with at most one map per chunk. *)
Theorem processHTMLChunks_never_throws (w : World) (s : Session) (chunks : list string) :
  exists results t,
    Inference.processHTMLChunks w s chunks = (Ok results, t)
    /\ (length results <= length chunks)%nat.
Proof.
  destruct (processLoop_returns w s chunks 0%nat 0 []) as (results & t & H & Hlen).
  exists results, t. split; [exact H | cbn in Hlen; lia].
Qed.

(** X10: without the credential no request is sent and the caller is never
    suspended: the chunks are walked through with an empty event log and an
    empty result. *)
Theorem no_credential_no_request (w : World) (s : Session) (chunks : list string) :
  apiKey w = false ->
  Inference.processHTMLChunks w s chunks = (Ok [], []).
Proof. intros Hk. now apply processLoop_silent. Qed.

Lemma no_credential_no_request_witness :
  Inference.processHTMLChunks (Scenario.world false) Scenario.deaf Scenario.four_chunks
  = (Ok [], []).
Proof. apply (no_credential_no_request (Scenario.world false)). reflexivity. Defined.

(** X11: with the credential set, every chunk is sent to the service exactly
    once and in the order of the chunks, whether the calls succeed or fail:
    a failed chunk is not retried and none is skipped. *)
Theorem each_chunk_is_sent_once_in_order (w : World) (s : Session) (chunks : list string) :
  apiKey w = true ->
  Observe.callsOf (snd (Inference.processHTMLChunks w s chunks)) = chunks.
Proof. intros Hk. now apply processLoop_calls. Qed.

Lemma each_chunk_is_sent_once_in_order_witness :
  Observe.callsOf
    (snd (Inference.processHTMLChunks (Scenario.world true) Scenario.deaf
            Scenario.four_chunks))
  = Scenario.four_chunks.
Proof. apply (each_chunk_is_sent_once_in_order (Scenario.world true)). reflexivity. Defined.

(** X12: if the credential is set and the service answers every chunk with
    a non-empty text that [JSON.parse] accepts, there is one selector map
    per chunk and no more than MAX_REQUESTS_PER_MINUTE requests are sent
    between two suspensions. *)
Theorem answered_calls_keep_the_budget (w : World) (s : Session) (chunks : list string) :
  apiKey w = true ->
  (forall j chunk, chunks !! j = Some chunk ->
     exists c content selectors,
       completion s j chunk = Ok (Some (String c content))
       /\ jsonParse w (String c content) = Some selectors) ->
  exists results t,
    Inference.processHTMLChunks w s chunks = (Ok results, t)
    /\ length results = length chunks
    /\ Inference.max_calls_between_sleeps t <= MAX_REQUESTS_PER_MINUTE.
Proof.
  intros Hk Hall.
  pose proof (answered_calls_respect_budget w s chunks Hk Hall) as Hbudget.
  assert (forall l i requestCount results,
            (forall j chunk, l !! j = Some chunk ->
               exists c content selectors,
                 completion s (i + j) chunk = Ok (Some (String c content))
                 /\ jsonParse w (String c content) = Some selectors) ->
            exists results' t,
              Inference.processLoop w s i l requestCount results = (Ok results', t)
              /\ length results' = (length results + length l)%nat) as Hloop.
  { induction l as [|chunk rest IH]; intros i requestCount results Hl.
    - exists results, []. split; [reflexivity | cbn; lia].
    - destruct (Hl 0%nat chunk eq_refl) as (c & content & selectors & Ha & Hp).
      rewrite Nat.add_0_r in Ha.
      rewrite (processLoop_answered_chunk w s i chunk rest requestCount results
                 c content selectors Hk Ha Hp).
      edestruct (IH (S i)) as (results' & t & -> & Hlen).
      + intros j chunk' Hj. replace (S i + j)%nat with (i + S j)%nat by lia.
        now apply Hl.
      + eexists _, _. split; [reflexivity|].
        rewrite Hlen, length_app. cbn. lia. }
  destruct (Hloop chunks 0%nat 0 [] Hall) as (results & t & H & Hlen).
  exists results, t. unfold Inference.processHTMLChunks in *.
  rewrite H in Hbudget. cbn in Hbudget. repeat split; assumption.
Qed.

Lemma answered_calls_keep_the_budget_witness :
  exists results t,
    Inference.processHTMLChunks (Scenario.world true)
      (session (Scenario.world true) 0) ["a"; "b"; "c"; "d"; "e"] = (Ok results, t)
    /\ length results = 5%nat
    /\ Inference.max_calls_between_sleeps t <= MAX_REQUESTS_PER_MINUTE.
Proof.
  apply (answered_calls_keep_the_budget (Scenario.world true)
           (session (Scenario.world true) 0) ["a"; "b"; "c"; "d"; "e"]).
  - reflexivity.
  - intros j chunk _. eexists _, _, _. split; reflexivity.
Defined.

(** X13: every suspension lasts RATE_LIMIT_DELAY milliseconds, and a
    document of n chunks is suspended at most (n - 1) / 3 times; a document
    of up to three chunks is never suspended. *)
Theorem suspensions_are_bounded (w : World) (s : Session) (chunks : list string) :
  let sleeps := Observe.sleepsOf (snd (Inference.processHTMLChunks w s chunks)) in
  Forall (fun ms => ms = RATE_LIMIT_DELAY) sleeps
  /\ 3 * Z.of_nat (length sleeps) <= Z.max 0 (Z.of_nat (length chunks) - 1)
  /\ ((length chunks <= 3)%nat -> sleeps = []).
Proof.
  cbv zeta.
  destruct (processLoop_sleeps w s chunks 0%nat 0 []
              ltac:(unfold MAX_REQUESTS_PER_MINUTE; lia)) as (Hall & Hnil & Hbound).
  cbv zeta in *. unfold Inference.processHTMLChunks.
  set (sleeps := Observe.sleepsOf _) in *.
  assert (3 * Z.of_nat (length sleeps) <= Z.max 0 (Z.of_nat (length chunks) - 1)) as Hb.
  { destruct chunks as [|chunk rest].
    - rewrite (Hnil eq_refl). cbn. lia.
    - specialize (Hbound ltac:(discriminate)). lia. }
  repeat split; [assumption | assumption |].
  intros Hlen. destruct sleeps; [reflexivity | cbn [length] in Hb; lia].
Qed.

Lemma suspensions_are_bounded_witness :
  Observe.sleepsOf
    (snd (Inference.processHTMLChunks (Scenario.world true)
            (session (Scenario.world true) 0) ["a"; "b"; "c"])) = [].
Proof.
  apply (suspensions_are_bounded (Scenario.world true)
           (session (Scenario.world true) 0) ["a"; "b"; "c"]).
  cbn. lia.
Defined.

(** ** The combiner *)

Section CombinerShape.

Import Combiner.

Lemma fragments_app (key : string) (l1 l2 : list (gmap string string)) :
  fragments key (l1 ++ l2) = fragments key l1 ++ fragments key l2.
Proof.
  induction l1 as [|m l1 IH]; [reflexivity|]. cbn [app fragments].
  destruct (m !! key) as [[|c v]|]; cbn; now rewrite ?IH.
Qed.

Lemma fragments_nonempty (key : string) (l : list (gmap string string)) :
  Forall (fun v => v <> "") (fragments key l).
Proof.
  induction l as [|m l IH]; [constructor|]. cbn [fragments].
  destruct (m !! key) as [[|c v]|]; auto.
Qed.

Lemma join_cons (sep x : string) (l : list string) :
  l <> [] -> JS.join sep (x :: l) = x +:+ sep +:+ JS.join sep l.
Proof. destruct l; [congruence | reflexivity]. Qed.

Lemma join_app (sep : string) (a b : list string) :
  a <> [] -> b <> [] ->
  JS.join sep (a ++ b) = JS.join sep a +:+ sep +:+ JS.join sep b.
Proof.
  intros Ha Hb. induction a as [|x a IH]; [congruence|].
  destruct a as [|y a].
  - cbn [app]. now rewrite join_cons.
  - change ((x :: y :: a) ++ b) with (x :: ((y :: a) ++ b)).
    rewrite !join_cons by (try discriminate; now destruct a).
    rewrite IH by discriminate. now rewrite !append_assoc.
Qed.

Lemma join_empty_iff (sep : string) (l : list string) :
  Forall (fun v => v <> "") l -> (JS.join sep l = "" <-> l = []).
Proof.
  intros H. split; [|now intros ->].
  destruct H as [|x l Hx _]; [reflexivity|].
  destruct x as [|c x]; [congruence|]. destruct l; discriminate.
Qed.

End CombinerShape.

(** X14: the combined map has exactly the five field keys: a key the
    service leaves out is bound all the same, and any other key the service
    adds is dropped. *)
Theorem combined_map_has_exactly_five_keys (selectorsList : list (gmap string string))
    (key : string) :
  is_Some (Combiner.combineSelectors selectorsList !! key) <-> key ∈ Combiner.allKeys.
Proof.
  split.
  - intros [v Hv]. unfold Combiner.combineSelectors, Combiner.allKeys in *.
    cbn [foldl] in Hv.
    repeat (rewrite lookup_insert in Hv; case_decide as E;
            [subst key; repeat constructor|clear E]).
    now rewrite lookup_empty in Hv.
  - intros Hkey. rewrite combineSelectors_lookup by assumption. eauto.
Qed.

(** X15: combining the maps of two runs of chunks, one after the other,
    joins the two combined values with a comma and a blank, or gives the
    other value when one of them is empty; nothing is deduplicated. *)
Theorem combining_two_runs (l1 l2 : list (gmap string string)) (key c1 c2 : string) :
  key ∈ Combiner.allKeys ->
  Combiner.combineSelectors l1 !! key = Some c1 ->
  Combiner.combineSelectors l2 !! key = Some c2 ->
  Combiner.combineSelectors (l1 ++ l2) !! key
  = Some (match c1, c2 with
          | EmptyString, _ => c2
          | _, EmptyString => c1
          | _, _ => c1 +:+ ", " +:+ c2
          end).
Proof.
  intros Hkey. rewrite !combineSelectors_lookup, fragments_app by assumption.
  intros [= <-] [= <-]. f_equal.
  pose proof (join_empty_iff ", " _ (fragments_nonempty key l1)) as H1.
  pose proof (join_empty_iff ", " _ (fragments_nonempty key l2)) as H2.
  destruct (Combiner.fragments key l1) as [|x a] eqn:E1.
  - reflexivity.
  - destruct (Combiner.fragments key l2) as [|y b] eqn:E2.
    + rewrite app_nil_r.
      destruct (JS.join ", " (x :: a)) eqn:E; [|reflexivity].
      discriminate (proj1 H1 eq_refl).
    + rewrite join_app by discriminate.
      destruct (JS.join ", " (x :: a)) eqn:Ea; [discriminate (proj1 H1 eq_refl)|].
      destruct (JS.join ", " (y :: b)) eqn:Eb; [discriminate (proj1 H2 eq_refl)|].
      reflexivity.
Qed.

Lemma combining_two_runs_witness :
  Combiner.combineSelectors
    ([ {[ "titulo" := ".promo h3" ]} ] ++ [ {[ "titulo" := ".promo h3" ]} ]) !! "titulo"
  = Some ".promo h3, .promo h3".
Proof.
  apply (combining_two_runs [ {[ "titulo" := ".promo h3" ]} ]
           [ {[ "titulo" := ".promo h3" ]} ] "titulo" ".promo h3" ".promo h3").
  - apply list_elem_of_further, list_elem_of_here.
  - vm_compute. reflexivity.
  - vm_compute. reflexivity.
Defined.

(** ** The extractor *)

Section ExtractorShape.

Import Extractor.

Lemma at_index_trimmed (r : Render) (selector : option string) (index : nat) :
  JS.trim (at_index (findElements r selector) index) = at_index (findElements r selector) index.
Proof.
  unfold at_index.
  destruct (findElements r selector !! index) as [text|] eqn:E; cbn; [|reflexivity].
  eapply findElements_trimmed, list_elem_of_lookup_2, E.
Qed.

End ExtractorShape.

(** X16: there are never more records than title elements, and without a
    usable title selector (absent, empty, or rejected by the page) there is
    no record at all, whatever the other selectors match. *)
Theorem records_follow_the_titles (r : Render) (selectors : gmap string string) :
  (length (Extractor.extract r selectors)
   <= length (Extractor.findElements r (selectors !! "titulo")))%nat
  /\ ((selectors !! "titulo" = None \/ selectors !! "titulo" = Some ""
       \/ exists selector e, selectors !! "titulo" = Some selector
                             /\ querySelectorAll r selector = Throw e) ->
      Extractor.extract r selectors = []).
Proof.
  split.
  - unfold Extractor.extract, Extractor.candidates.
    etransitivity; [apply List.filter_length_le|]. now rewrite length_imap.
  - intros H. unfold Extractor.extract, Extractor.candidates.
    assert (Extractor.findElements r (selectors !! "titulo") = []) as ->; [|reflexivity].
    destruct H as [-> | [-> | (selector & e & -> & He)]]; try reflexivity.
    unfold Extractor.findElements. destruct selector; [reflexivity|]. now rewrite He.
Qed.

Lemma records_follow_the_titles_witness :
  Extractor.extract Scenario.page {[ "descripcion" := ".desc" ]} = [].
Proof.
  apply (proj2 (records_follow_the_titles Scenario.page {[ "descripcion" := ".desc" ]})).
  left. reflexivity.
Defined.

(** X17: every record of the output carries the address of the page as the
    browser reports it, and each of its five text fields is trimmed. *)
Theorem records_are_trimmed (r : Render) (selectors : gmap string string)
    (promo : Promotion) :
  promo ∈ Extractor.extract r selectors ->
  url promo = href r
  /\ JS.trim (titulo promo) = titulo promo
  /\ JS.trim (descripcion promo) = descripcion promo
  /\ JS.trim (medioPago promo) = medioPago promo
  /\ JS.trim (fecha promo) = fecha promo
  /\ JS.trim (condiciones promo) = condiciones promo.
Proof.
  unfold Extractor.extract. rewrite list_elem_of_In, filter_In, <- list_elem_of_In.
  intros [H _]. unfold Extractor.candidates in H.
  apply elem_of_lookup_imap in H as (index & text & -> & Ht). cbn.
  repeat split; try apply at_index_trimmed.
  eapply findElements_trimmed, list_elem_of_lookup_2, Ht.
Qed.

Lemma records_are_trimmed_witness :
  JS.trim "A" = "A".
Proof.
  refine (proj1 (proj2 (records_are_trimmed Scenario.page Scenario.selectors
    {| medioPago := ""; titulo := "A"; descripcion := "a";
       url := "https://example.com/promos"; fecha := ""; condiciones := "" |} _))).
  vm_compute. apply list_elem_of_here.
Defined.

(** ** Sessions *)

Section SessionShape.

Import ScrapeSession Observe.

Variables (w : World) (s : Session) (url : string).

(** A failed outcome with the given message. *)
Let failure (m : string) : ScrapingResult :=
  {| success := false; data := None; error := Some m |}.

(** The session, path by path: the first render step that fails decides the
    message; if none fails the chunks are processed and the records
    extracted.  The handles obtained are released on every path. *)
Lemma scrapeUrl_paths :
  let r := render s in
  scrapeUrl w s url =
  match launch r with
  | Throw _ => (Ok (failure "No se pudo inicializar el navegador"), closing r)
  | Ok _ =>
    match newPage r with
    | Throw e => (Ok (failure (message_or_unknown e)), closing r)
    | Ok _ =>
      match configure r with
      | Throw e => (Ok (failure (message_or_unknown e)), closing r)
      | Ok _ =>
        match goto r url with
        | Throw e => (Ok (failure (message_or_unknown e)), closing r)
        | Ok _ =>
          match outerHTML r with
          | Throw e => (Ok (failure (message_or_unknown e)), closing r)
          | Ok html =>
            let inferred :=
              Inference.processHTMLChunks w s (chunksOf (Sanitizer.sanitizeHTML html)) in
            match fst inferred, evaluate r with
            | Ok selectorsList, Ok _ =>
                (Ok {| success := true;
                       data := Some (Extractor.extract r
                                       (Combiner.combineSelectors selectorsList));
                       error := None |},
                 snd inferred ++ closing r)
            | Ok _, Throw e | Throw e, _ =>
                (Ok (failure (message_or_unknown e)), snd inferred ++ closing r)
            end
          end
        end
      end
    end
  end.
Proof.
  cbv zeta. unfold scrapeUrl, setupPuppeteer, release, closing, failure.
  destruct (launch (render s)) as [[]|e0]; [|reflexivity].
  destruct (newPage (render s)) as [[]|e1];
    [|destruct (closeBrowser (render s)) as [[]|?]; reflexivity].
  destruct (closePage (render s)) as [[]|?], (closeBrowser (render s)) as [[]|?];
    (destruct (configure (render s)) as [[]|e2]; [|reflexivity]);
    (destruct (goto (render s) url) as [[]|e3]; [|reflexivity]);
    (destruct (outerHTML (render s)) as [html|e4]; [|reflexivity]);
    cbn -[Sanitizer.sanitizeHTML chunksOf Inference.processHTMLChunks
          Extractor.extract Combiner.combineSelectors];
    (destruct (Inference.processHTMLChunks w s (chunksOf (Sanitizer.sanitizeHTML html)))
       as [[selectorsList|e5] t]);
    cbn -[Extractor.extract Combiner.combineSelectors];
    try (destruct (evaluate (render s)) as [[]|e6];
         cbn -[Extractor.extract Combiner.combineSelectors]);
    rewrite ?app_nil_r, <- ?app_assoc; reflexivity.
Qed.

Lemma callsOf_closing (r : Render) : callsOf (closing r) = [].
Proof. unfold closing. destruct (is_ok (launch r)), (is_ok (newPage r)); reflexivity. Qed.

End SessionShape.

(** X18: a session never throws.  If one of the five render steps that lead
    to the body of the page fails (launch, new page, configuration,
    navigation, capture of the body), the session fails with the message of
    the first step that failed; a session succeeds only if the render engine
    did all its six steps.  A success carries records and no error; a
    failure carries a message and no records. *)
Theorem session_reports_first_render_failure (w : World) (s : Session) (url : string) :
  exists outcome t,
    ScrapeSession.scrapeUrl w s url = (Ok outcome, t)
    /\ (forall m, Observe.renderFailure (render s) url = Some m ->
          outcome = {| success := false; data := None; error := Some m |})
    /\ (success outcome = true -> Observe.rendered (render s) url = true)
    /\ ((success outcome = true
         /\ error outcome = None
         /\ exists records, data outcome = Some records)
        \/ (success outcome = false
            /\ data outcome = None
            /\ exists m, error outcome = Some m)).
Proof.
  rewrite scrapeUrl_paths. cbv zeta. unfold Observe.rendered, Observe.renderFailure.
  destruct (launch (render s)) as [[]|?]; cbn [is_ok andb];
    [|eexists _, _; split; [reflexivity|]; repeat split;
      [now intros m [= <-] | discriminate | right; cbn; eauto]].
  destruct (newPage (render s)) as [[]|?]; cbn [is_ok andb];
    [|eexists _, _; split; [reflexivity|]; repeat split;
      [now intros m [= <-] | discriminate | right; cbn; eauto]].
  destruct (configure (render s)) as [[]|?]; cbn [is_ok andb];
    [|eexists _, _; split; [reflexivity|]; repeat split;
      [now intros m [= <-] | discriminate | right; cbn; eauto]].
  destruct (goto (render s) url) as [[]|?]; cbn [is_ok andb];
    [|eexists _, _; split; [reflexivity|]; repeat split;
      [now intros m [= <-] | discriminate | right; cbn; eauto]].
  destruct (outerHTML (render s)) as [html|?]; cbn [is_ok andb];
    [|eexists _, _; split; [reflexivity|]; repeat split;
      [now intros m [= <-] | discriminate | right; cbn; eauto]].
  destruct (fst (Inference.processHTMLChunks w s
                   (ScrapeSession.chunksOf (Sanitizer.sanitizeHTML html))))
    as [selectorsList|e], (evaluate (render s)) as [[]|?]; cbn [is_ok];
    eexists _, _; (split; [reflexivity|]); repeat split;
    try discriminate; try reflexivity;
    solve [left; cbn; eauto | right; cbn; eauto].
Qed.

Lemma session_reports_first_render_failure_witness :
  fst (ScrapeSession.scrapeUrl Cases.mixed (session Cases.mixed 1) "https://example.com/down")
  = Ok {| success := false; data := None;
          error := Some "Navigation timeout of 30000 ms exceeded" |}.
Proof.
  destruct (session_reports_first_render_failure Cases.mixed (session Cases.mixed 1)
              "https://example.com/down") as (outcome & t & -> & H & _).
  cbn [fst]. f_equal. apply H. reflexivity.
Defined.

(** X19: the handles are released on every path and after everything else:
    the log of a session is the log of the inference over the chunks (or
    nothing, if the session failed before) followed by the closing of the
    page, if one was opened, and then of the browser, if it was launched; an
    error of the release itself changes nothing. *)
Theorem session_always_releases (w : World) (s : Session) (url : string) :
  exists t0,
    snd (ScrapeSession.scrapeUrl w s url) = t0 ++ Observe.closing (render s)
    /\ (t0 = []
        \/ exists html,
             outerHTML (render s) = Ok html
             /\ t0 = snd (Inference.processHTMLChunks w s
                            (ScrapeSession.chunksOf (Sanitizer.sanitizeHTML html)))).
Proof.
  rewrite scrapeUrl_paths. cbv zeta.
  destruct (launch (render s)) as [[]|?]; [|exists []; split; [reflexivity | now left]].
  destruct (newPage (render s)) as [[]|?]; [|exists []; split; [reflexivity | now left]].
  destruct (configure (render s)) as [[]|?]; [|exists []; split; [reflexivity | now left]].
  destruct (goto (render s) url) as [[]|?]; [|exists []; split; [reflexivity | now left]].
  destruct (outerHTML (render s)) as [html|?]; [|exists []; split; [reflexivity | now left]].
  eexists. split; [|right; exists html; split; reflexivity].
  destruct (fst _) as [?|?], (evaluate (render s)) as [[]|?]; reflexivity.
Qed.

(** X20: if the render engine fails before the body of the page is
    captured, the session fails without a single request to the inference
    service; and a launch that fails is reported as
    "No se pudo inicializar el navegador", whatever the engine said, with
    nothing to release. *)
Theorem no_page_no_inference (w : World) (s : Session) (url : string) :
  (is_ok (launch (render s)) && is_ok (newPage (render s)) && is_ok (configure (render s))
   && is_ok (goto (render s) url) && is_ok (outerHTML (render s)) = false ->
   exists m t,
     ScrapeSession.scrapeUrl w s url
     = (Ok {| success := false; data := None; error := Some m |}, t)
     /\ Observe.callsOf t = [])
  /\ (forall e, launch (render s) = Throw e ->
        ScrapeSession.scrapeUrl w s url
        = (Ok {| success := false; data := None;
                 error := Some "No se pudo inicializar el navegador" |}, [])).
Proof.
  split.
  - rewrite scrapeUrl_paths. cbv zeta.
    destruct (launch (render s)) as [[]|?] eqn:E0; cbn [is_ok andb];
      [|intros _; eexists _, _; split; [reflexivity | apply callsOf_closing]].
    destruct (newPage (render s)) as [[]|?]; cbn [is_ok andb];
      [|intros _; eexists _, _; split; [reflexivity | apply callsOf_closing]].
    destruct (configure (render s)) as [[]|?]; cbn [is_ok andb];
      [|intros _; eexists _, _; split; [reflexivity | apply callsOf_closing]].
    destruct (goto (render s) url) as [[]|?]; cbn [is_ok andb];
      [|intros _; eexists _, _; split; [reflexivity | apply callsOf_closing]].
    destruct (outerHTML (render s)) as [html|?]; cbn [is_ok andb];
      [discriminate|intros _; eexists _, _; split; [reflexivity | apply callsOf_closing]].
  - intros e He. rewrite scrapeUrl_paths. cbv zeta. rewrite He.
    unfold Observe.closing. rewrite He. reflexivity.
Qed.

Lemma no_page_no_inference_witness :
  exists m t,
    ScrapeSession.scrapeUrl (Scenario.world true)
      {| render := Cases.offline; completion := fun _ _ => Ok None |}
      "https://example.com/promos"
    = (Ok {| success := false; data := None; error := Some m |}, t)
    /\ Observe.callsOf t = [].
Proof.
  apply (proj1 (no_page_no_inference (Scenario.world true)
                  {| render := Cases.offline; completion := fun _ _ => Ok None |}
                  "https://example.com/promos")).
  reflexivity.
Defined.

(** ** The route *)

Section ValidationShape.

Import Route.

Variable w : World.

Lemma element_issues_none (items : list json) :
  omap (element_issue w) items = [] ->
  items = map JString (omap as_string items)
  /\ Forall (fun u => isUrl w u = true) (omap as_string items).
Proof.
  induction items as [|item items IH]; cbn [omap list_omap]; [auto|].
  destruct item as [| | |u| |]; cbn; try discriminate.
  destruct (isUrl w u) eqn:E; [|discriminate].
  intros H. destruct (IH H) as [H1 H2]. split; [now f_equal | now constructor].
Qed.

Lemma element_issues_valid (urls : list string) :
  Forall (fun u => isUrl w u = true) urls ->
  omap (element_issue w) (map JString urls) = []
  /\ omap as_string (map JString urls) = urls.
Proof.
  induction 1 as [|u urls Hu _ [IH1 IH2]]; [auto|].
  cbn. rewrite Hu. cbn in *. rewrite IH1. split; [reflexivity | now f_equal].
Qed.

Lemma urlSchema_parse_issues (body : json) (e : exn) :
  urlSchema_parse w body = Throw e -> exists issues, issues <> [] /\ e = ZodError issues.
Proof.
  unfold urlSchema_parse.
  destruct body as [| | | | |members];
    try (intros [= <-]; eexists; split; [|reflexivity]; discriminate).
  destruct (member "urls" members) as [[| | | |items|]|];
    try (intros [= <-]; eexists; split; [|reflexivity]; discriminate).
  destruct (_ ++ _) as [|issue issues]; intros [= <-].
  eexists; split; [|reflexivity]; discriminate.
Qed.

End ValidationShape.

(** X21: the validation accepts a body exactly when it is an object whose
    [urls] member is an array of 1 to 10 strings that are all URLs, and it
    hands over those strings in their order. *)
Theorem validation_accepts_exactly (w : World) (body : json) (urls : list string) :
  Route.urlSchema_parse w body = Ok urls
  <-> (exists members,
         body = JObject members
         /\ member "urls" members = Some (JArray (map JString urls)))
      /\ (1 <= length urls <= 10)%nat
      /\ Forall (fun u => isUrl w u = true) urls.
Proof.
  unfold Route.urlSchema_parse. split.
  - destruct body as [| | | | |members]; try discriminate.
    destruct (member "urls" members) as [[| | | |items|]|] eqn:Em; try discriminate.
    destruct (omap (Route.element_issue w) items) as [|i l] eqn:Ei; [|discriminate].
    destruct (element_issues_none w items Ei) as [Hitems Hvalid].
    destruct (Z.ltb_spec (Z.of_nat (length items)) 1); [discriminate|].
    destruct (Z.ltb_spec 10 (Z.of_nat (length items))); [discriminate|].
    cbn. intros [= <-].
    assert (length (omap Route.as_string items) = length items) as Hlen
      by (rewrite Hitems at 2; now rewrite length_map).
    split; [exists members; split; [reflexivity | now rewrite <- Hitems]|].
    split; [lia | assumption].
  - intros ((members & -> & ->) & Hlen & Hvalid).
    destruct (element_issues_valid w urls Hvalid) as [-> ->].
    rewrite length_map.
    destruct (Z.ltb_spec (Z.of_nat (length urls)) 1); [lia|].
    destruct (Z.ltb_spec 10 (Z.of_nat (length urls))); [lia|].
    reflexivity.
Qed.

(** X22: a request whose body was read but does not pass the validation is
    answered with status 400 and an object whose [error] member is the text
    "Error de validación" and whose [details] member is a non-empty array,
    and nothing is launched for it: the event log is empty.  (What the
    entries of [details] look like is left open.) *)
Theorem invalid_request_starts_nothing (w : World) (req : Route.Request)
    (body : json) (e : exn) :
  Route.req_json req = Ok body ->
  Route.urlSchema_parse w body = Throw e ->
  exists members details,
    Route.POST w req
    = (Ok {| Route.status := 400; Route.body := JObject members |}, [])
    /\ member "error" members = Some (JString "Error de validación")
    /\ member "details" members = Some (JArray details)
    /\ details <> [].
Proof.
  intros Hreq Hparse.
  destruct (urlSchema_parse_issues w body e Hparse) as (issues & Hne & ->).
  eexists _, (map JString issues). split.
  - unfold Route.POST. rewrite Hreq. cbn. rewrite Hparse. reflexivity.
  - repeat split. destruct issues; [congruence | discriminate].
Qed.

Lemma invalid_request_starts_nothing_witness :
  exists members details,
    Route.POST (Scenario.world true)
      {| Route.req_json := Ok (JObject [("urls", JArray [])]) |}
    = (Ok {| Route.status := 400; Route.body := JObject members |}, [])
    /\ member "error" members = Some (JString "Error de validación")
    /\ member "details" members = Some (JArray details)
    /\ details <> [].
Proof.
  apply (invalid_request_starts_nothing (Scenario.world true)
           {| Route.req_json := Ok (JObject [("urls", JArray [])]) |}
           (JObject [("urls", JArray [])])
           (ZodError ["Se requiere al menos una URL"])); reflexivity.
Defined.

(** X23: the two limits on the number of URLs.  An array of URLs that are
    all valid is refused with the single issue "Se requiere al menos una URL"
    when it is empty and with the single issue "Máximo 10 URLs permitidas"
    when it has more than ten entries. *)
Theorem url_count_limits (w : World) (members : list (string * json))
    (urls : list string) :
  member "urls" members = Some (JArray (map JString urls)) ->
  Forall (fun u => isUrl w u = true) urls ->
  (urls = [] ->
   Route.urlSchema_parse w (JObject members)
   = Throw (ZodError ["Se requiere al menos una URL"]))
  /\ ((10 < length urls)%nat ->
      Route.urlSchema_parse w (JObject members)
      = Throw (ZodError ["Máximo 10 URLs permitidas"])).
Proof.
  intros Hm Hvalid. unfold Route.urlSchema_parse. rewrite Hm.
  destruct (element_issues_valid w urls Hvalid) as [-> _]. rewrite length_map.
  split.
  - intros ->. reflexivity.
  - intros Hlen.
    destruct (Z.ltb_spec (Z.of_nat (length urls)) 1); [lia|].
    destruct (Z.ltb_spec 10 (Z.of_nat (length urls))); [reflexivity | lia].
Qed.

Lemma url_count_limits_witness :
  Route.urlSchema_parse (Scenario.world true) (JObject [("urls", JArray [])])
  = Throw (ZodError ["Se requiere al menos una URL"]).
Proof.
  apply (proj1 (url_count_limits (Scenario.world true) [("urls", JArray [])] []
                  eq_refl (List.Forall_nil _))).
  reflexivity.
Defined.

(** X24: the route never throws.  Its answer has status 200, or it has
    status 400, 422 or 500 and was given before anything was launched (the
    event log is empty); a body that cannot be read as JSON is answered with
    status 500 and the message of the parser. *)
Theorem route_always_answers (w : World) (req : Route.Request) :
  (exists resp t,
     Route.POST w req = (Ok resp, t)
     /\ (Route.status resp = 200
         \/ (t = [] /\ (Route.status resp = 400 \/ Route.status resp = 422
                        \/ Route.status resp = 500))))
  /\ (forall m, Route.req_json req = Throw (Error m) ->
        Route.POST w req
        = (Ok {| Route.status := 500;
                 Route.body := JObject [ ("error", JString "Error interno del servidor");
                                         ("message", JString m) ] |}, [])).
Proof.
  split.
  - destruct (Route.req_json req) as [body|e] eqn:Hreq.
    + destruct (Route.urlSchema_parse w body) as [urls|e] eqn:Hparse.
      * destruct (POST_valid w req body urls Hreq Hparse) as (results & t & _ & ->).
        eexists _, _. split; [reflexivity | now left].
      * destruct (urlSchema_parse_issues w body e Hparse) as (issues & _ & ->).
        unfold Route.POST. rewrite Hreq. cbn. rewrite Hparse. cbn.
        eexists _, _. split; [reflexivity|]. right. auto.
    + unfold Route.POST. rewrite Hreq.
      destruct e; cbn; eexists _, _; (split; [reflexivity|]); right; auto.
  - intros m Hreq. unfold Route.POST. rewrite Hreq. reflexivity.
Qed.

Lemma route_always_answers_witness :
  Route.POST (Scenario.world true)
    {| Route.req_json := Throw (Error "Unexpected end of JSON input") |}
  = (Ok {| Route.status := 500;
           Route.body := JObject [ ("error", JString "Error interno del servidor");
                                   ("message", JString "Unexpected end of JSON input") ] |},
     []).
Proof.
  apply (proj2 (route_always_answers (Scenario.world true)
                  {| Route.req_json := Throw (Error "Unexpected end of JSON input") |})).
  reflexivity.
Defined.

(** ** The client *)

Section ClientShape.

Import Client.

Lemma trimStart_empty_iff (s : string) : JS.trimStart s = "" <-> blank s = true.
Proof.
  induction s as [|c s IH]; cbn [JS.trimStart blank]; [tauto|].
  destruct (JS.isWhiteSpace c); cbn [andb]; [exact IH|].
  split; discriminate.
Qed.

Lemma trimEnd_keeps_text (c : ascii) (s : string) :
  JS.isWhiteSpace c = false -> JS.trimEnd (String c s) <> "".
Proof.
  intros Hc. cbn [JS.trimEnd]. rewrite Hc. now destruct (JS.trimEnd s).
Qed.

Lemma trim_empty_iff (s : string) : JS.trim s = "" <-> blank s = true.
Proof.
  rewrite <- trimStart_empty_iff. unfold JS.trim. split; [|now intros ->].
  pose proof (trimStart_starts s) as Hs.
  destruct (JS.trimStart s) as [|c rest]; [reflexivity|].
  intros H. exfalso. exact (trimEnd_keeps_text c rest Hs H).
Qed.

Lemma splitLines_nonempty (s : string) : splitLines s <> [].
Proof.
  induction s as [|c s IH]; cbn [splitLines]; [discriminate|].
  destruct (Ascii.eqb c Sanitizer.LF); [discriminate|].
  now destruct (splitLines s).
Qed.

Lemma blank_lines (s : string) :
  blank s = true <-> Forall (fun line => blank line = true) (splitLines s).
Proof.
  induction s as [|c s IH]; cbn [splitLines blank].
  - split; [repeat constructor | reflexivity].
  - destruct (Ascii.eqb_spec c Sanitizer.LF) as [->|Hc].
    + change (JS.isWhiteSpace Sanitizer.LF) with true. cbn [andb]. rewrite IH.
      split; [now constructor | now inversion 1].
    + pose proof (splitLines_nonempty s) as Hne.
      destruct (splitLines s) as [|line lines]; [congruence|].
      rewrite andb_true_iff, IH. split.
      * intros [Hw H]. inversion H; subst. constructor; [|assumption].
        cbn [blank]. now rewrite Hw.
      * inversion 1 as [|? ? Hl Hr]; subst. cbn [blank] in Hl.
        apply andb_true_iff in Hl as [Hw Hl]. split; [assumption | now constructor].
Qed.

Lemma lines_have_no_break (s : string) :
  Forall (fun line => Observe.occurs Sanitizer.LF line = false) (splitLines s).
Proof.
  induction s as [|c s IH]; cbn [splitLines]; [repeat constructor|].
  destruct (Ascii.eqb_spec c Sanitizer.LF) as [->|Hc]; [now constructor|].
  pose proof (splitLines_nonempty s) as Hne.
  destruct (splitLines s) as [|line lines]; [congruence|].
  inversion IH; subst. constructor; [|assumption].
  cbn [Observe.occurs]. apply orb_false_iff. split; [|assumption].
  apply Ascii.eqb_neq. congruence.
Qed.

Lemma nonEmpty_trim (s : string) :
  Extractor.nonEmpty (JS.trim s) = negb (blank s).
Proof.
  pose proof (trim_empty_iff s) as H.
  destruct (JS.trim s) as [|c t]; cbn.
  - now rewrite (proj1 H eq_refl).
  - destruct (blank s); [|reflexivity]. discriminate (proj2 H eq_refl).
Qed.

End ClientShape.

Section FormLines.

Import Client.

Let newline : string := String Sanitizer.LF "".

Lemma join_newline_cons (line : string) (lines : list string) :
  lines <> [] ->
  JS.join newline (line :: lines) = line +:+ String Sanitizer.LF (JS.join newline lines).
Proof. destruct lines; [congruence | reflexivity]. Qed.

(** Splitting at the line breaks undoes joining with line breaks. *)
Lemma splitLines_line (line : string) :
  Observe.occurs Sanitizer.LF line = false -> splitLines line = [line].
Proof.
  induction line as [|c line IH]; [reflexivity|].
  intros [Hc Hl]%occurs_cons. cbn [splitLines].
  rewrite Ascii.eqb_sym, Hc, (IH Hl). reflexivity.
Qed.

Lemma splitLines_join (lines : list string) :
  lines <> [] ->
  Forall (fun line => Observe.occurs Sanitizer.LF line = false) lines ->
  splitLines (JS.join newline lines) = lines.
Proof.
  intros Hne Hall. induction Hall as [|line lines Hl Hall IH]; [congruence|].
  destruct lines as [|line' lines].
  - apply splitLines_line, Hl.
  - rewrite join_newline_cons by discriminate.
    specialize (IH ltac:(discriminate)). clear Hne.
    induction line as [|c line IHl].
    + change ("" +:+ ?x) with x. cbn [splitLines].
      rewrite Ascii.eqb_refl, IH. reflexivity.
    + apply occurs_cons in Hl as [Hc Hl].
      change (String c line +:+ ?x) with (String c (line +:+ x)). cbn [splitLines].
      rewrite Ascii.eqb_sym, Hc, (IHl Hl). reflexivity.
Qed.

Lemma join_splitLines (s : string) : JS.join newline (splitLines s) = s.
Proof.
  induction s as [|c s IH]; [reflexivity|]. cbn [splitLines].
  pose proof (splitLines_nonempty s) as Hne.
  destruct (Ascii.eqb_spec c Sanitizer.LF) as [->|Hc].
  - rewrite join_newline_cons by assumption. now rewrite IH.
  - destruct (splitLines s) as [|line lines]; [congruence|].
    destruct lines as [|line' lines].
    + cbn in IH |- *. now rewrite IH.
    + rewrite join_newline_cons in IH |- * by discriminate.
      change (String c line +:+ ?x) with (String c (line +:+ x)). now rewrite IH.
Qed.

End FormLines.

(** X25: the form submits the lines of its text that are not blank, as they
    were typed and in their order: for the text made of any lines (none of
    which contains a line break) joined by line breaks, the submitted list is
    the sublist of the lines that are not all white space, and every text is
    made of its lines in this way.  The list is empty exactly when the whole
    text is blank, that is exactly when the submit button is disabled for
    want of input, and no submitted entry is blank or contains a line
    break. *)
Theorem form_submits_the_nonblank_lines (urlInput : string) :
  (forall lines,
     lines <> [] ->
     Forall (fun line => Observe.occurs Sanitizer.LF line = false) lines ->
     JS.join (String Sanitizer.LF "") lines = urlInput ->
     Client.submittedUrls urlInput
     = List.filter (fun line => negb (Client.blank line)) lines)
  /\ (exists lines,
        lines <> []
        /\ Forall (fun line => Observe.occurs Sanitizer.LF line = false) lines
        /\ JS.join (String Sanitizer.LF "") lines = urlInput)
  /\ (Client.submittedUrls urlInput = [] <-> Client.buttonDisabled false urlInput = true)
  /\ Forall (fun url => JS.trim url <> "" /\ Observe.occurs Sanitizer.LF url = false)
            (Client.submittedUrls urlInput).
Proof.
  split; [|split].
  - intros lines Hne Hall <-. unfold Client.submittedUrls.
    rewrite (splitLines_join lines Hne Hall).
    apply List.filter_ext. intros line. apply nonEmpty_trim.
  - exists (Client.splitLines urlInput).
    split; [apply splitLines_nonempty|].
    split; [apply lines_have_no_break | apply join_splitLines].
  - unfold Client.submittedUrls, Client.buttonDisabled. split.
    + cbn [orb]. rewrite nonEmpty_trim, negb_involutive, blank_lines.
      induction (Client.splitLines urlInput) as [|line lines IH]; cbn [List.filter].
      * split; [constructor | reflexivity].
      * rewrite nonEmpty_trim. destruct (Client.blank line) eqn:E; cbn [negb].
        -- rewrite IH. split; [now constructor | now inversion 1].
        -- split; [discriminate | inversion 1; congruence].
    + pose proof (lines_have_no_break urlInput) as H.
      induction H as [|line lines Hl _ IH]; cbn [List.filter]; [constructor|].
      destruct (Extractor.nonEmpty (JS.trim line)) eqn:E; [|assumption].
      constructor; [|assumption]. split; [|assumption].
      intros Ht. rewrite Ht in E. discriminate.
Qed.

Lemma form_submits_the_nonblank_lines_witness :
  Client.submittedUrls
    (JS.join (String Sanitizer.LF "")
       [" https://a.example/promos"; "   "; ""; "https://b.example/ofertas "])
  = [" https://a.example/promos"; "https://b.example/ofertas "].
Proof.
  rewrite (proj1 (form_submits_the_nonblank_lines _)
             [" https://a.example/promos"; "   "; ""; "https://b.example/ofertas "]).
  - reflexivity.
  - discriminate.
  - repeat constructor.
  - reflexivity.
Defined.

(** X26: what the page shows after a batch that passed the validation: the
    records of the successful sessions replace the list, the error is
    cleared and the spinner stops, whether or not some sessions failed; the
    [errors] member of the answer is never read. *)
Theorem client_shows_records_of_valid_batch (show : json -> string) (w : World)
    (req : Route.Request) (body : json) (urls : list string) (st : Client.State) :
  Route.req_json req = Ok body ->
  Route.urlSchema_parse w body = Ok urls ->
  exists results resp t,
    Route.outcomes w 0 urls results
    /\ Route.POST w req = (Ok resp, t)
    /\ Client.fetchPromotions show (Ok (Client.deliver resp)) st
       = {| Client.promotions :=
              Some (JArray (map Route.promotionJson (Route.promotionsOf results)));
            Client.loading := false;
            Client.error := None |}.
Proof.
  intros Hreq Hparse.
  destruct (POST_valid w req body urls Hreq Hparse) as (results & t & Hres & HP).
  eexists results, _, t. split; [assumption|]. split; [exact HP|].
  unfold Client.fetchPromotions, Client.deliver, Route.batchBody, stringify_object.
  cbn. reflexivity.
Qed.

Lemma client_shows_records_of_valid_batch_witness :
  exists results resp t,
    Route.outcomes (Scenario.world true) 0 ["https://example.com/promos"] results
    /\ Route.POST (Scenario.world true) Scenario.request = (Ok resp, t)
    /\ Client.fetchPromotions (fun _ => "") (Ok (Client.deliver resp))
         {| Client.promotions := Some (JArray []); Client.loading := false;
            Client.error := None |}
       = {| Client.promotions :=
              Some (JArray (map Route.promotionJson (Route.promotionsOf results)));
            Client.loading := false;
            Client.error := None |}.
Proof.
  apply (client_shows_records_of_valid_batch (fun _ => "") (Scenario.world true)
           Scenario.request
           (JObject [("urls", JArray [JString "https://example.com/promos"])])
           ["https://example.com/promos"]); reflexivity.
Defined.

(** X27: what the page shows after a batch that did not pass the
    validation: the text "Error de validación" as error, the list it had
    before, and the spinner stopped. *)
Theorem client_shows_validation_error (show : json -> string) (w : World)
    (req : Route.Request) (body : json) (e : exn) (st : Client.State) :
  Route.req_json req = Ok body ->
  Route.urlSchema_parse w body = Throw e ->
  exists resp,
    Route.POST w req = (Ok resp, [])
    /\ Client.fetchPromotions show (Ok (Client.deliver resp)) st
       = {| Client.promotions := Client.promotions st;
            Client.loading := false;
            Client.error := Some "Error de validación" |}.
Proof.
  intros Hreq Hparse.
  destruct (urlSchema_parse_issues w body e Hparse) as (issues & _ & ->).
  eexists. split.
  - unfold Route.POST. rewrite Hreq. cbn. rewrite Hparse. reflexivity.
  - reflexivity.
Qed.

Lemma client_shows_validation_error_witness :
  exists resp,
    Route.POST (Scenario.world true)
      {| Route.req_json := Ok (JObject [("urls", JArray [])]) |} = (Ok resp, [])
    /\ Client.fetchPromotions (fun _ => "") (Ok (Client.deliver resp))
         {| Client.promotions := Some (JArray []); Client.loading := true;
            Client.error := None |}
       = {| Client.promotions := Some (JArray []);
            Client.loading := false;
            Client.error := Some "Error de validación" |}.
Proof.
  apply (client_shows_validation_error (fun _ => "") (Scenario.world true)
           {| Route.req_json := Ok (JObject [("urls", JArray [])]) |}
           (JObject [("urls", JArray [])])
           (ZodError ["Se requiere al menos una URL"])); reflexivity.
Defined.

(** X28: after every call of [fetchPromotions] the spinner is stopped; if an
    error is shown the list is the one the page had before; and no error is
    shown only if an answer arrived with an ok status and a body that could
    be read. *)
Theorem fetch_keeps_list_on_error (show : json -> string)
    (net : result Client.HttpResponse) (st : Client.State) :
  let st' := Client.fetchPromotions show net st in
  Client.loading st' = false
  /\ (Client.error st' <> None -> Client.promotions st' = Client.promotions st)
  /\ (Client.error st' = None ->
      exists response data,
        net = Ok response /\ Client.ok response = true
        /\ Client.json_body response = Ok data
        /\ Client.property "promotions" data = Ok (Client.promotions st')).
Proof.
  cbv zeta. unfold Client.fetchPromotions.
  destruct net as [[ok body]|e]; cbn; [|repeat split; congruence].
  destruct body as [data|e]; cbn; [|repeat split; congruence].
  destruct ok; cbn.
  - destruct (Client.property "promotions" data) as [promos|e] eqn:E; cbn;
      repeat split; try congruence.
    intros _. exists {| Client.ok := true; Client.json_body := Ok data |}, data.
    repeat split. exact E.
  - destruct (Client.property "error" data) as [v|e]; cbn; repeat split; congruence.
Qed.

Lemma fetch_keeps_list_on_error_witness :
  Client.promotions
    (Client.fetchPromotions (fun _ => "") (Throw (Error "Failed to fetch"))
       {| Client.promotions := Some (JArray [JNull]); Client.loading := false;
          Client.error := None |})
  = Some (JArray [JNull]).
Proof.
  apply (proj1 (proj2 (fetch_keeps_list_on_error (fun _ => "")
           (Throw (Error "Failed to fetch"))
           {| Client.promotions := Some (JArray [JNull]); Client.loading := false;
              Client.error := None |}))).
  discriminate.
Defined.

(** ** What reaches the inference service *)

(** X29: when the credential is set and the body of the page was captured,
    the requests of the session are the chunks of the sanitized body, one
    request per chunk and in their order; put together they are the
    sanitized body, so nothing the sanitizer removed is sent and nothing it
    kept is left out. *)
Theorem service_sees_the_sanitized_body (w : World) (s : Session) (url html : string) :
  apiKey w = true ->
  launch (render s) = Ok tt ->
  newPage (render s) = Ok tt ->
  configure (render s) = Ok tt ->
  goto (render s) url = Ok tt ->
  outerHTML (render s) = Ok html ->
  Observe.callsOf (snd (ScrapeSession.scrapeUrl w s url))
  = ScrapeSession.chunksOf (Sanitizer.sanitizeHTML html)
  /\ JS.join "" (Observe.callsOf (snd (ScrapeSession.scrapeUrl w s url)))
     = Sanitizer.sanitizeHTML html.
Proof.
  intros Hk Hl Hn Hc Hg Hh.
  assert (Observe.callsOf (snd (ScrapeSession.scrapeUrl w s url))
          = ScrapeSession.chunksOf (Sanitizer.sanitizeHTML html)) as Hcalls.
  { rewrite scrapeUrl_paths. cbv zeta. rewrite Hl, Hn, Hc, Hg, Hh.
    destruct (fst (Inference.processHTMLChunks w s _)) as [?|?],
             (evaluate (render s)) as [[]|?];
      cbn [snd]; rewrite callsOf_app, callsOf_closing, app_nil_r;
      now apply processLoop_calls. }
  split; [exact Hcalls|].
  rewrite Hcalls. unfold ScrapeSession.chunksOf.
  destruct (splitHTMLIntoChunks_total (Sanitizer.sanitizeHTML html)) as [chunks H].
  rewrite H. cbn [default]. apply splitLoop_join in H. exact H.
Qed.

Lemma service_sees_the_sanitized_body_witness :
  JS.join "" (Observe.callsOf
                (snd (ScrapeSession.scrapeUrl (Scenario.world true)
                        (session (Scenario.world true) 0) "https://example.com/promos")))
  = Sanitizer.sanitizeHTML
      "<body><div><b>A</b><i>a</i></div><div><b>B</b><i>b</i></div><div><b>C</b><i>c</i></div></body>".
Proof.
  apply (service_sees_the_sanitized_body (Scenario.world true)
           (session (Scenario.world true) 0) "https://example.com/promos");
    reflexivity.
Defined.
